(** * Task_ManagerApp: the task cache, its reconciliation handlers,
      the filter/sort projection and the selection set.

    Shallow embedding of [src/components/TaskManager.tsx] (the React
    component [TaskManager]), of the status button of
    [src/components/TaskCard.tsx] and of the types of [src/types].

    React state variables become fields of a record that every handler
    takes and returns; the hosted backend is a record of functions that
    answer the requests a handler issues; the callbacks given to
    [Array.prototype] methods become list functions; a handler that
    awaits the backend is the composition of what it does before and
    after the answer. *)

From Stdlib Require Import ZArith Ascii String List Sorted Permutation Lia.
From stdpp Require Import base decidable option list sets gmap strings sorting.

Local Open Scope string_scope.
Local Open Scope Z_scope.
#[local] Set Warnings "-clear-no-such-hyp".

(** ** Data model ([src/types]) *)

Inductive Priority := Low | Medium | High.
Inductive Status := Todo | InProgress | Done.

#[global] Instance Priority_eq_dec : EqDecision Priority.
Proof. solve_decision. Defined.
#[global] Instance Status_eq_dec : EqDecision Status.
Proof. solve_decision. Defined.

(** The string a priority or a status is at run time. *)
Definition priority_name (p : Priority) : string :=
  match p with Low => "low" | Medium => "medium" | High => "high" end.

Definition status_name (s : Status) : string :=
  match s with Todo => "todo" | InProgress => "in-progress" | Done => "done" end.

(** [interface Task]. [due_date] is [string | null]. *)
Record Task := mkTask {
  id : string;
  user_id : string;
  title : string;
  description : string;
  category : string;
  priority : Priority;
  status : Status;
  due_date : option string;
  completed : bool;
  created_at : string;
  updated_at : string
}.

#[global] Instance Task_eq_dec : EqDecision Task.
Proof. solve_decision. Defined.

(** [Partial<Task>]: every field may be missing. *)
Record PartialTask := mkPartial {
  p_id : option string;
  p_user_id : option string;
  p_title : option string;
  p_description : option string;
  p_category : option string;
  p_priority : option Priority;
  p_status : option Status;
  p_due_date : option (option string);
  p_completed : option bool;
  p_created_at : option string;
  p_updated_at : option string
}.

(** [{ ...t, ...data }]: the fields of [data] that are present win. *)
Definition spread (t : Task) (data : PartialTask) : Task :=
  {| id := default (id t) (p_id data);
     user_id := default (user_id t) (p_user_id data);
     title := default (title t) (p_title data);
     description := default (description t) (p_description data);
     category := default (category t) (p_category data);
     priority := default (priority t) (p_priority data);
     status := default (status t) (p_status data);
     due_date := default (due_date t) (p_due_date data);
     completed := default (completed t) (p_completed data);
     created_at := default (created_at t) (p_created_at data);
     updated_at := default (updated_at t) (p_updated_at data) |}.

(** The objects [{ completed }] and [{ status }]. *)
Definition only_completed (c : bool) : PartialTask :=
  mkPartial None None None None None None None None (Some c) None None.

Definition only_status (s : Status) : PartialTask :=
  mkPartial None None None None None None (Some s) None None None None.

(** [{ ...t, completed }] and [{ ...t, status }]. *)
Definition with_completed (c : bool) (t : Task) : Task := spread t (only_completed c).

Definition with_status (s : Status) (t : Task) : Task := spread t (only_status s).

(** [{ ...task, completed: true, status: 'done' }]. *)
Definition completed_done : PartialTask :=
  mkPartial None None None None None None (Some Done) None (Some true) None None.

(** ** Array methods used on the cache *)

Definition has_id (x : string) (t : Task) : bool := bool_decide (id t = x).

(** [tasks.some((t) => t.id === x)] *)
Definition some_id (x : string) (l : list Task) : bool := existsb (has_id x) l.

(** [tasks.find((t) => t.id === x)] *)
Definition find_id (x : string) (l : list Task) : option Task := List.find (has_id x) l.

(** [current.map((task) => (task.id === x ? r : task))] *)
Definition replace_id (x : string) (r : Task) (l : list Task) : list Task :=
  (λ task, if has_id x task then r else task) <$> l.

(** [current.map((t) => (t.id === x ? f(t) : t))] *)
Definition alter_id (x : string) (f : Task → Task) (l : list Task) : list Task :=
  (λ t, if has_id x t then f t else t) <$> l.

(** [current.filter((task) => task.id !== x)] *)
Definition remove_id (x : string) (l : list Task) : list Task :=
  filter (λ task, id task ≠ x) l.

(** The ids a cache holds, in order. *)
Definition ids (l : list Task) : list string := id <$> l.

(** ** Change feed ([subscribeToTasks]) *)

(** The row images of a [postgres_changes] payload: the payload is
    untyped in the source; the handler reads [user_id] of both images
    when they are there, the whole [new] row on INSERT and UPDATE and
    [old.id] on DELETE. *)
Record Image := mkImage { img_id : option string; img_user_id : option string }.

Inductive Payload :=
| INSERT (new : Task) (old : option Image)
| UPDATE (new : Task) (old : option Image)
| DELETE (new : option Image) (old : Image).

(** [payload.new && payload.new.user_id !== user.id] *)
Definition new_is_foreign (uid : string) (p : Payload) : bool :=
  match p with
  | INSERT n _ | UPDATE n _ => negb (bool_decide (user_id n = uid))
  | DELETE (Some i) _ => negb (bool_decide (img_user_id i = Some uid))
  | DELETE None _ => false
  end.

(** [payload.old && payload.old.user_id !== user.id] *)
Definition old_is_foreign (uid : string) (p : Payload) : bool :=
  match p with
  | INSERT _ (Some i) | UPDATE _ (Some i) => negb (bool_decide (img_user_id i = Some uid))
  | INSERT _ None | UPDATE _ None => false
  | DELETE _ o => negb (bool_decide (img_user_id o = Some uid))
  end.

(** An event that passes both ownership tests. *)
Definition for_current_user (uid : string) (p : Payload) : bool :=
  negb (new_is_foreign uid p) && negb (old_is_foreign uid p).

(** The three [setTasks] updaters of the callback. *)
Definition feed_insert (n : Task) (current : list Task) : list Task :=
  if some_id (id n) current then current else n :: current.

Definition feed_update (n : Task) (current : list Task) : list Task :=
  replace_id (id n) n current.

Definition feed_delete (o : Image) (current : list Task) : list Task :=
  filter (λ task, Some (id task) ≠ img_id o) current.

(** The callback given to [.on('postgres_changes', ...)], as a function
    of the cache. It touches no other state variable. *)
Definition subscribeToTasks (uid : string) (p : Payload) (current : list Task) : list Task :=
  if new_is_foreign uid p then current
  else if old_is_foreign uid p then current
  else match p with
       | INSERT n _ => feed_insert n current
       | UPDATE n _ => feed_update n current
       | DELETE _ o => feed_delete o current
       end.

(** ** Selection set ([toggleTaskSelection], [selectAllTasks]) *)

(** [selectedTasks] is a [Set<string>]. The component reads its
    membership and its size; its elements also go to the backend as the
    argument of an [in] filter, where their order does not count. *)
Definition toggleTaskSelection (selectedTasks : gset string) (taskId : string) : gset string :=
  if decide (taskId ∈ selectedTasks) then selectedTasks ∖ {[taskId]}
  else selectedTasks ∪ {[taskId]}.

(** [visible] is [filteredAndSortedTasks]. The test compares the size
    of the set with the length of the list. *)
Definition selectAllTasks (selectedTasks : gset string) (visible : list Task) : gset string :=
  if decide (size selectedTasks = length visible) then ∅
  else list_to_set (ids visible).

(** ** Component state and the backend client *)

(** The [useState] variables the handlers read and write. *)
Record State := mkState {
  tasks : list Task;
  selectedTasks : gset string;
  editingTask : option Task;
  showForm : bool;
  formSubmitError : string
}.

Definition setTasks (f : list Task → list Task) (st : State) : State :=
  mkState (f (tasks st)) (selectedTasks st) (editingTask st) (showForm st) (formSubmitError st).

Definition setSelectedTasks (s : gset string) (st : State) : State :=
  mkState (tasks st) s (editingTask st) (showForm st) (formSubmitError st).

Definition setEditingTask (e : option Task) (st : State) : State :=
  mkState (tasks st) (selectedTasks st) e (showForm st) (formSubmitError st).

Definition setShowForm (b : bool) (st : State) : State :=
  mkState (tasks st) (selectedTasks st) (editingTask st) b (formSubmitError st).

Definition setFormSubmitError (m : string) (st : State) : State :=
  mkState (tasks st) (selectedTasks st) (editingTask st) (showForm st) m.

(** The [{ data, error }] object a query resolves to; an error is its
    message. *)
Record Resp (A : Type) := mkResp { data : option (list A); error : option string }.
Arguments mkResp {A} _ _.
Arguments data {A} _.
Arguments error {A} _.

(** The requests the component issues through [supabase.from('tasks')],
    each answered by the backend. *)
Record Supabase := mkSupabase {
  (** [.select('id').eq('user_id', u).eq('title', t).limit(1)] *)
  select_id_by_title : string → option string → Resp string;
  (** [.insert([row]).select()] *)
  insert_select : PartialTask → Resp Task;
  (** [.update(fields).eq('id', x)], its [error] *)
  update_eq_id : PartialTask → string → option string;
  (** [.delete().eq('id', x)] *)
  delete_eq_id : string → option string;
  (** [.delete().in('id', xs)] *)
  delete_in_id : list string → option string;
  (** [.update(fields).in('id', xs)] *)
  update_in_id : PartialTask → list string → option string
}.

(** [m || fallback] on strings. *)
Definition or_else (m fallback : string) : string :=
  if decide (m = "") then fallback else m.

Definition duplicate_title : string :=
  "A task with this title already exists. Please use a different title.".

(** The [catch] blocks of create and update: [formSubmitError] is the
    value the handler closed over, [st0]'s. *)
Definition report (st0 : State) (msg fallback : string) (st : State) : State :=
  if decide (formSubmitError st0 = "") then setFormSubmitError (or_else msg fallback) st
  else st.

(** The duplicate-title lookup of create and update. [Some (st, m)]:
    the lookup throws [m], having left the state [st]. *)
Definition title_precheck (db : Supabase) (uid : string) (t : option string) (st0 : State)
  : option (State * string) :=
  let existing := select_id_by_title db uid t in
  match error existing with
  | Some fetchError => Some (st0, fetchError)
  | None =>
    match data existing with
    | Some (_ :: _) => Some (setFormSubmitError duplicate_title st0, duplicate_title)
    | _ => None
    end
  end.

(** ** Create ([handleCreateTask]) *)

(** The row sent to the backend:
    [{ ...data, user_id: user.id, status: data.status || 'todo' }]. *)
Definition insert_row (uid : string) (d : PartialTask) : PartialTask :=
  mkPartial (p_id d) (Some uid) (p_title d) (p_description d) (p_category d)
    (p_priority d) (Some (default Todo (p_status d))) (p_due_date d) (p_completed d)
    (p_created_at d) (p_updated_at d).

(** [setTasks((current) => [newTask, ...current])] *)
Definition create_commit (newTask : Task) (current : list Task) : list Task :=
  newTask :: current.

(** What the handler does once the insert has answered. [st0] is the
    state the handler closed over, [st] the state at that moment: the
    updater given to [setTasks] receives the cache as it then is. *)
Definition create_settle (st0 : State) (inserted : Resp Task) (st : State)
  : State * option string :=
  match error inserted with
  | Some e => (report st0 e "Error creating task. Please try again." st, Some e)
  | None =>
    match data inserted with
    | Some (newTask :: _) =>
        (setFormSubmitError "" (setTasks (create_commit newTask) st), None)
    | _ => (st, None)
    end
  end.

(** The result is the state once the handler has settled and the error
    it rejected with, if any. *)
Definition handleCreateTask (db : Supabase) (uid : string) (d : PartialTask) (st0 : State)
  : State * option string :=
  match title_precheck db uid (p_title d) st0 with
  | Some (st, m) => (report st0 m "Error creating task. Please try again." st, Some m)
  | None => create_settle st0 (insert_select db (insert_row uid d)) (setShowForm false st0)
  end.

(** The state after each state setter the handler calls, in the order
    of the calls, when nothing else writes in between: the [catch]
    block's write after a failed lookup; [setFormSubmitError] and the
    [catch] block's write for a duplicate; otherwise [setShowForm(false)],
    the state in which the insert is awaited, followed by the [catch]
    block's write when the insert fails, or by [setTasks] and
    [setFormSubmitError('')] when it answers with a row. *)
Definition create_writes (db : Supabase) (uid : string) (d : PartialTask) (st0 : State)
  : list State :=
  let existing := select_id_by_title db uid (p_title d) in
  match error existing with
  | Some fetchError => [report st0 fetchError "Error creating task. Please try again." st0]
  | None =>
    match data existing with
    | Some (_ :: _) =>
        let s1 := setFormSubmitError duplicate_title st0 in
        [s1; report st0 duplicate_title "Error creating task. Please try again." s1]
    | _ =>
        let s1 := setShowForm false st0 in
        let inserted := insert_select db (insert_row uid d) in
        s1 :: match error inserted with
              | Some e => [report st0 e "Error creating task. Please try again." s1]
              | None =>
                match data inserted with
                | Some (newTask :: _) =>
                    let s2 := setTasks (create_commit newTask) s1 in
                    [s2; setFormSubmitError "" s2]
                | _ => []
                end
              end
    end
  end.

(** ** Update ([handleUpdateTask]) *)

(** [data.title && data.title !== editingTask.title] *)
Definition title_changes (d : PartialTask) (e : Task) : bool :=
  match p_title d with
  | Some t => negb (bool_decide (t = "")) && negb (bool_decide (t = title e))
  | None => false
  end.

Definition update_optimistic (e : Task) (d : PartialTask) (current : list Task) : list Task :=
  replace_id (id e) (spread e d) current.

Definition update_rollback (originalTask : Task) (current : list Task) : list Task :=
  replace_id (id originalTask) originalTask current.

(** On a backend error the rollback runs twice: before the [throw] and
    again in the [catch] that receives it. *)
Definition handleUpdateTask (db : Supabase) (uid : string) (d : PartialTask) (st0 : State)
  : State * option string :=
  match editingTask st0 with
  | None => (st0, None)
  | Some e =>
    match (if title_changes d e then title_precheck db uid (p_title d) st0 else None) with
    | Some (st, m) =>
        (report st0 m "Error checking for duplicate title. Please try again." st, Some m)
    | None =>
      let st1 := setShowForm false (setEditingTask None (setTasks (update_optimistic e d) st0)) in
      match update_eq_id db d (id e) with
      | Some err =>
          (report st0 err "Error updating task. Please try again."
             (setTasks (update_rollback e) (setTasks (update_rollback e) st1)), None)
      | None => (setFormSubmitError "" st1, None)
      end
    end
  end.

(** ** Delete ([handleDeleteTask], [handleBulkDelete]) *)

(** [setTasks((current) => [...current, taskToDelete])] *)
Definition delete_rollback (taskToDelete : Task) (current : list Task) : list Task :=
  current ++ [taskToDelete].

(** [confirmed] is the answer to the [confirm] dialog. *)
Definition handleDeleteTask (db : Supabase) (confirmed : bool) (x : string) (st0 : State) : State :=
  if negb confirmed then st0
  else
    let taskToDelete := find_id x (tasks st0) in
    let st1 := setTasks (remove_id x) st0 in
    match delete_eq_id db x with
    | Some err =>
        match taskToDelete with
        | Some t => setTasks (delete_rollback t) st1
        | None => st1
        end
    | None =>
        if decide (x ∈ selectedTasks st0)
        then setSelectedTasks (selectedTasks st0 ∖ {[x]}) st1
        else st1
    end.

(** [tasks.filter(task => selectedTasks.has(task.id))] *)
Definition selected_of (s : gset string) (l : list Task) : list Task :=
  filter (λ task, id task ∈ s) l.

(** [current.filter(task => !selectedTasks.has(task.id))] *)
Definition bulk_remove (s : gset string) (current : list Task) : list Task :=
  filter (λ task, id task ∉ s) current.

(** [setTasks(current => [...current, ...tasksToDelete])] *)
Definition bulk_delete_rollback (tasksToDelete current : list Task) : list Task :=
  current ++ tasksToDelete.

Definition handleBulkDelete (db : Supabase) (confirmed : bool) (st0 : State) : State :=
  if decide (size (selectedTasks st0) = 0%nat) then st0
  else if negb confirmed then st0
  else
    let selectedTasksArray := elements (selectedTasks st0) in
    let tasksToDelete := selected_of (selectedTasks st0) (tasks st0) in
    let st1 := setTasks (bulk_remove (selectedTasks st0)) st0 in
    match delete_in_id db selectedTasksArray with
    | Some err => setTasks (bulk_delete_rollback tasksToDelete) st1
    | None => setSelectedTasks ∅ st1
    end.

(** ** Bulk complete ([handleBulkMarkAsCompleted]) *)

Definition bulk_complete (s : gset string) (current : list Task) : list Task :=
  (λ task, if decide (id task ∈ s) then spread task completed_done else task) <$> current.

(** [tasksToUpdate.find(t => t.id === task.id)], the original if found. *)
Definition bulk_complete_rollback (tasksToUpdate current : list Task) : list Task :=
  (λ task, match find_id (id task) tasksToUpdate with
           | Some originalTask => originalTask
           | None => task
           end) <$> current.

Definition handleBulkMarkAsCompleted (db : Supabase) (st0 : State) : State :=
  if decide (size (selectedTasks st0) = 0%nat) then st0
  else
    let selectedTasksArray := elements (selectedTasks st0) in
    let tasksToUpdate := selected_of (selectedTasks st0) (tasks st0) in
    let st1 := setTasks (bulk_complete (selectedTasks st0)) st0 in
    match update_in_id db completed_done selectedTasksArray with
    | Some err => setTasks (bulk_complete_rollback tasksToUpdate) st1
    | None => setSelectedTasks ∅ st1
    end.

(** ** Toggle-complete and status change *)

Definition handleToggleComplete (db : Supabase) (x : string) (c : bool) (st0 : State) : State :=
  match find_id x (tasks st0) with
  | None => st0
  | Some task =>
    let st1 := setTasks (alter_id x (with_completed c)) st0 in
    match update_eq_id db (only_completed c) x with
    | Some err => setTasks (alter_id x (with_completed (completed task))) st1
    | None => st1
    end
  end.

Definition handleStatusChange (db : Supabase) (x : string) (s : Status) (st0 : State) : State :=
  match find_id x (tasks st0) with
  | None => st0
  | Some task =>
    let st1 := setTasks (alter_id x (with_status s)) st0 in
    match update_eq_id db (only_status s) x with
    | Some err => setTasks (alter_id x (with_status (status task))) st1
    | None => st1
    end
  end.

(** The status button of [TaskCard]. *)
Definition statuses : list Status := [Todo; InProgress; Done].

(** [statuses.indexOf(s)], [-1] when absent. *)
Fixpoint indexOf (s : Status) (l : list Status) : Z :=
  match l with
  | [] => -1
  | x :: l' => if decide (x = s) then 0
               else let i := indexOf s l' in if i <? 0 then -1 else i + 1
  end.

(** [statuses[(currentIndex + 1) % statuses.length]] *)
Definition nextStatus (s : Status) : option Status :=
  let currentIndex := indexOf s statuses in
  statuses !! Z.to_nat (Z.rem (currentIndex + 1) (Z.of_nat (length statuses))).

(** [onClick]: [onStatusChange(task.id, nextStatus)]. *)
Definition status_click (db : Supabase) (task : Task) (st0 : State) : State :=
  match nextStatus (status task) with
  | Some s => handleStatusChange db (id task) s st0
  | None => st0
  end.

(** ** Filter/sort projection ([filteredAndSortedTasks]) *)

Inductive SortOption := Newest | Oldest | DueDate | ByPriority.

Inductive DueDateRange := AllDates | Overdue | Today | Week | Month.

#[global] Instance DueDateRange_eq_dec : EqDecision DueDateRange.
Proof. solve_decision. Defined.

(** [FilterOptions]; ['all'] switches a filter off. *)
Record FilterOptions := mkFilters {
  f_category : string;
  f_priority : string;
  f_status : string;
  dueDateRange : DueDateRange
}.

(** [Array.prototype.sort(compare)]: the sort is stable, and for a
    comparator that is a total preorder its result is the one stable
    ordering, which insertion from the right computes. *)
Section ArraySort.
Context {A : Type} (compare : A → A → Z).

Fixpoint sort_insert (a : A) (l : list A) : list A :=
  match l with
  | [] => [a]
  | b :: l' => if 0 <? compare a b then b :: sort_insert a l' else a :: l
  end.

Fixpoint array_sort (l : list A) : list A :=
  match l with
  | [] => []
  | a :: l' => sort_insert a (array_sort l')
  end.
End ArraySort.

(** The engine's [Date] is taken as given: every date string the
    backend stores parses to a time in milliseconds. *)
Section Projector.
(** [new Date(s).getTime()] *)
Variable getTime : string → Z.
(** [d.setHours(0, 0, 0, 0)], as a function of the time of [d] *)
Variable setHours0 : Z → Z.
(** [d.setDate(d.getDate() + n)] and [d.setMonth(d.getMonth() + n)] *)
Variable addDays : Z → Z → Z.
Variable addMonths : Z → Z → Z.

(** [!t.due_date]: [null] and the empty string. *)
Definition no_due_date (t : Task) : bool :=
  match due_date t with
  | None => true
  | Some s => bool_decide (s = "")
  end.

(** [new Date(t.due_date).getTime()] for a due date that is there. *)
Definition due_time (t : Task) : Z := getTime (default "" (due_date t)).

(** The callback of the due-date filter; [today] is midnight of the
    current day. *)
Definition in_due_range (r : DueDateRange) (today : Z) (t : Task) : bool :=
  if no_due_date t then false
  else
    let dueDate := setHours0 (due_time t) in
    match r with
    | Overdue => (dueDate <? today) && negb (completed t)
    | Today => dueDate =? today
    | Week => (today <=? dueDate) && (dueDate <=? addDays today 7)
    | Month => (today <=? dueDate) && (dueDate <=? addMonths today 1)
    | AllDates => true
    end.

Definition priorityOrder (p : Priority) : Z :=
  match p with High => 0 | Medium => 1 | Low => 2 end.

(** The comparator given to [filtered.sort]. *)
Definition compare_tasks (sortBy : SortOption) (a b : Task) : Z :=
  if completed a && negb (completed b) then 1
  else if negb (completed a) && completed b then -1
  else match sortBy with
       | Newest => getTime (created_at b) - getTime (created_at a)
       | Oldest => getTime (created_at a) - getTime (created_at b)
       | DueDate =>
           if no_due_date a && no_due_date b then 0
           else if no_due_date a then 1
           else if no_due_date b then -1
           else due_time a - due_time b
       | ByPriority => priorityOrder (priority a) - priorityOrder (priority b)
       end.

(** The four filtering steps, in the order of the source. *)
Definition by_category (f : FilterOptions) (l : list Task) : list Task :=
  if decide (f_category f ≠ "all") then filter (λ t, category t = f_category f) l else l.

Definition by_priority (f : FilterOptions) (l : list Task) : list Task :=
  if decide (f_priority f ≠ "all")
  then filter (λ t, priority_name (priority t) = f_priority f) l else l.

Definition by_status (f : FilterOptions) (l : list Task) : list Task :=
  if decide (f_status f ≠ "all")
  then filter (λ t, status_name (status t) = f_status f) l else l.

Definition by_due_date (now : Z) (f : FilterOptions) (l : list Task) : list Task :=
  if decide (dueDateRange f ≠ AllDates)
  then filter (λ t, in_due_range (dueDateRange f) (setHours0 now) t = true) l else l.

(** [now] is the time [new Date()] gives when the projection runs. *)
Definition filteredAndSortedTasks (now : Z) (cache : list Task) (sortBy : SortOption)
    (f : FilterOptions) : list Task :=
  let filtered := by_due_date now f (by_status f (by_priority f (by_category f cache))) in
  array_sort (compare_tasks sortBy) filtered.
End Projector.

(** * Notions used in the statements *)

(** A change-feed event as a step of the component: the callback only
    calls [setTasks]. *)
Definition on_feed (uid : string) (p : Payload) (st : State) : State :=
  setTasks (subscribeToTasks uid p) st.

(** Every selected id is the id of a cached record. *)
Definition selection_in_cache (st : State) : Prop :=
  ∀ x, x ∈ selectedTasks st → x ∈ ids (tasks st).

(** [t] with its [completed] field set to [c], every other field kept. *)
Definition completed_set (c : bool) (t : Task) : Task :=
  mkTask (id t) (user_id t) (title t) (description t) (category t) (priority t)
         (status t) (due_date t) c (created_at t) (updated_at t).

(** [t] with its [status] field set to [v], every other field kept. *)
Definition status_set (v : Status) (t : Task) : Task :=
  mkTask (id t) (user_id t) (title t) (description t) (category t) (priority t)
         v (due_date t) (completed t) (created_at t) (updated_at t).

(** What the duplicate-title lookup answers over the rows of the remote
    table when the backend answers it: the ids of the rows of that
    owner and title, one at most. *)
Definition lookup_title (rows : list Task) (uid : string) (t : option string) : Resp string :=
  mkResp (Some (take 1 (ids (filter (λ r, user_id r = uid ∧ Some (title r) = t) rows)))) None.

(** [a] may stand before [b] under the comparator. *)
Definition before {A : Type} (compare : A → A → Z) (a b : A) : Prop := compare a b ≤ 0.

(** The due-date buckets in the words of the specification: the task
    has a due date and, with both dates taken at midnight, overdue is
    due before today and not completed, today is due today, week and
    month are due from today to seven days, one month, from today. *)
Definition due_bucket (getTime : string → Z) (setHours0 : Z → Z) (addDays addMonths : Z → Z → Z)
    (r : DueDateRange) (today : Z) (t : Task) : Prop :=
  ∃ s, due_date t = Some s ∧ s ≠ "" ∧
    let dueDate := setHours0 (getTime s) in
    match r with
    | AllDates => True
    | Overdue => dueDate < today ∧ completed t = false
    | Today => dueDate = today
    | Week => today ≤ dueDate ≤ addDays today 7
    | Month => today ≤ dueDate ≤ addMonths today 1
    end.

(** The task passes every filter that is switched on. *)
Definition passes (getTime : string → Z) (setHours0 : Z → Z) (addDays addMonths : Z → Z → Z)
    (now : Z) (f : FilterOptions) (t : Task) : Prop :=
  (f_category f = "all" ∨ category t = f_category f) ∧
  (f_priority f = "all" ∨ priority_name (priority t) = f_priority f) ∧
  (f_status f = "all" ∨ status_name (status t) = f_status f) ∧
  (dueDateRange f = AllDates ∨
   due_bucket getTime setHours0 addDays addMonths (dueDateRange f) (setHours0 now) t).

(** ** Sample data *)

Definition task_a : Task :=
  mkTask "a" "u1" "Buy milk" "" "Work" Low Todo None false
         "2025-12-01T10:00:00Z" "2025-12-01T10:00:00Z".

Definition task_b : Task :=
  mkTask "b" "u1" "Write report" "" "Personal" High InProgress (Some "2025-12-09") false
         "2025-12-02T10:00:00Z" "2025-12-02T10:00:00Z".

Definition task_c : Task :=
  mkTask "c" "u1" "Call bank" "" "Work" Medium Done (Some "2025-12-08") true
         "2025-12-03T10:00:00Z" "2025-12-03T10:00:00Z".

Definition task_d : Task :=
  mkTask "d" "u1" "Pay rent" "" "Personal" High Todo (Some "2025-12-08") false
         "2025-12-03T10:00:00Z" "2025-12-03T10:00:00Z".

Definition buy_milk : PartialTask :=
  mkPartial None None (Some "Buy milk") (Some "") (Some "Work") (Some Low) None
            (Some None) None None None.

Definition state_of (cache : list Task) (s : gset string) : State :=
  mkState cache s None false "".

(** A backend that answers every lookup with no match and accepts
    every write. *)
Definition db_ok : Supabase :=
  mkSupabase (λ _ _, mkResp (Some []) None) (λ _, mkResp (Some []) None)
             (λ _ _, None) (λ _, None) (λ _, None) (λ _ _, None).

(** A backend whose lookups answer and whose writes all fail. *)
Definition db_down : Supabase :=
  mkSupabase (λ _ _, mkResp (Some []) None) (λ _, mkResp None (Some "network error"))
             (λ _ _, Some "network error") (λ _, Some "network error")
             (λ _, Some "network error") (λ _ _, Some "network error").

(** A backend whose insert answers with the row [t]. *)
Definition db_inserting (t : Task) : Supabase :=
  mkSupabase (λ _ _, mkResp (Some []) None) (λ _, mkResp (Some [t]) None)
             (λ _ _, None) (λ _, None) (λ _, None) (λ _ _, None).

(** A backend that holds [rows], answers the lookup over them and
    answers an insert with the row [t]. *)
Definition db_over (rows : list Task) (t : Task) : Supabase :=
  mkSupabase (lookup_title rows) (λ _, mkResp (Some [t]) None)
             (λ _ _, None) (λ _, None) (λ _, None) (λ _ _, None).

(** A clock for the sample data: times in milliseconds, days of
    December 2025 in UTC. *)
Definition day_ms : Z := 86400000.

Definition utc_getTime (s : string) : Z :=
  if decide (s = "2025-12-01T10:00:00Z") then 20423 * day_ms + 36000000
  else if decide (s = "2025-12-02T10:00:00Z") then 20424 * day_ms + 36000000
  else if decide (s = "2025-12-03T10:00:00Z") then 20425 * day_ms + 36000000
  else if decide (s = "2025-12-08") then 20430 * day_ms
  else if decide (s = "2025-12-09") then 20431 * day_ms
  else 0.

Definition utc_setHours0 (t : Z) : Z := t - t mod day_ms.
Definition utc_addDays (t n : Z) : Z := t + n * day_ms.
Definition utc_addMonths (t n : Z) : Z := t + n * 31 * day_ms.

(** The projection under the sample clock. *)
Definition visible_at (now : Z) (cache : list Task) (sortBy : SortOption) (f : FilterOptions)
  : list Task :=
  filteredAndSortedTasks utc_getTime utc_setHours0 utc_addDays utc_addMonths now cache sortBy f.

Definition no_filter : FilterOptions := mkFilters "all" "all" "all" AllDates.

(** * The rest of the component *)

(** ** Loading ([loadTasks], [loadUserEmails]) *)

(** [interface User] *)
Record User := mkUser { u_id : string; u_email : string }.

(** [[...new Set(xs)]]: the first occurrence of each element, in
    order. *)
Fixpoint set_array (l : list string) : list string :=
  match l with
  | [] => []
  | x :: l' => x :: filter (λ y, y ≠ x) (set_array l')
  end.

(** [setUserEmails((prev) => ({ ...prev, ...emailMap }))], the map
    [emailMap] holding the current user's email when [userIds] names
    the user and the email is not empty. *)
Definition loadUserEmails (user : User) (userIds : list string) (prev : gmap string string)
  : gmap string string :=
  let emailMap : gmap string string :=
    if bool_decide (u_id user ∈ userIds) && negb (bool_decide (u_email user = ""))
    then {[u_id user := u_email user]} else ∅ in
  emailMap ∪ prev.

(** The state variables of [TaskManager] beside those of [State]. *)
Record Screen := mkScreen {
  core : State;
  loading : bool;
  userEmails : gmap string string;
  sortBy : SortOption;
  filters : FilterOptions
}.

(** The values the [useState] calls start from. *)
Definition initial : Screen :=
  mkScreen (mkState [] ∅ None false "") true ∅ Newest (mkFilters "all" "all" "all" AllDates).

(** [loadTasks], given what
    [.select('*').eq('user_id', user.id).order('created_at', ...)]
    answers. *)
Definition loadTasks (user : User) (answer : Resp Task) (sc : Screen) : Screen :=
  match error answer, data answer with
  | None, Some d =>
      mkScreen (setTasks (λ _, d) (core sc)) false
               (loadUserEmails user (set_array (user_id <$> d)) (userEmails sc))
               (sortBy sc) (filters sc)
  | _, _ => mkScreen (core sc) false (userEmails sc) (sortBy sc) (filters sc)
  end.

(** The change-feed callback on the whole screen: beside the cache, an
    INSERT that is kept asks for the email of the row's owner. *)
Definition feed_screen (user : User) (p : Payload) (sc : Screen) : Screen :=
  mkScreen (on_feed (u_id user) p (core sc)) (loading sc)
           (match p with
            | INSERT n _ =>
                if for_current_user (u_id user) p && negb (bool_decide (user_id n = ""))
                then loadUserEmails user [user_id n] (userEmails sc)
                else userEmails sc
            | _ => userEmails sc
            end)
           (sortBy sc) (filters sc).

(** What happens to the screen from outside: the answer to the initial
    load, and change-feed events. *)
Inductive ScreenEvent :=
| Loaded (answer : Resp Task)
| Fed (p : Payload).

Definition screen_step (user : User) (ev : ScreenEvent) (sc : Screen) : Screen :=
  match ev with
  | Loaded answer => loadTasks user answer sc
  | Fed p => feed_screen user p sc
  end.

(** ** Categories offered by the filter bar ([categories]) *)

Definition defaultCategories : list string := ["Work"; "Personal"; "Urgent"].

(** The order of [Array.prototype.sort] without a comparator: strings
    by their code units. A character of a [string] stands for one code
    unit. *)
Definition compare_strings (a b : string) : Z :=
  match String.compare a b with Lt => -1 | Eq => 0 | Gt => 1 end.

Definition categories (cache : list Task) : list string :=
  let cats := set_array (category <$> cache) in
  let allCategories := set_array (defaultCategories ++ cats) in
  array_sort compare_strings allCategories.

(** ** Filter bar ([FilterSort]) *)

(** The [onChange] handlers of the four selects. *)
Definition change_category (v : string) (f : FilterOptions) : FilterOptions :=
  mkFilters v (f_priority f) (f_status f) (dueDateRange f).

Definition change_priority (v : string) (f : FilterOptions) : FilterOptions :=
  mkFilters (f_category f) v (f_status f) (dueDateRange f).

Definition change_status (v : string) (f : FilterOptions) : FilterOptions :=
  mkFilters (f_category f) (f_priority f) v (dueDateRange f).

Definition change_dueDateRange (v : DueDateRange) (f : FilterOptions) : FilterOptions :=
  mkFilters (f_category f) (f_priority f) (f_status f) v.

(** The condition under which the "Clear Filters" button is shown. *)
Definition some_filter_active (f : FilterOptions) : bool :=
  negb (bool_decide (f_category f = "all")) || negb (bool_decide (f_priority f = "all"))
  || negb (bool_decide (f_status f = "all")) || negb (bool_decide (dueDateRange f = AllDates)).

(** Its [onClick]. *)
Definition clear_filters : FilterOptions := mkFilters "all" "all" "all" AllDates.

(** ** Task card ([TaskCard]) *)

(** [isOwner] *)
Definition isOwner (user : User) (task : Task) : bool := bool_decide (u_id user = user_id task).

(** [task.due_date && new Date(task.due_date) < new Date() && !task.completed] *)
Definition isOverdue (getTime : string → Z) (now : Z) (task : Task) : bool :=
  negb (no_due_date task) && (due_time getTime task <? now) && negb (completed task).

(** ** Opening, closing and submitting the form ([TaskManager]) *)

(** [onEdit] of a card, "Add New Task", and [onClose] of the form. *)
Definition onEdit (task : Task) (st : State) : State :=
  setShowForm true (setEditingTask (Some task) st).

Definition add_new_task (st : State) : State :=
  setShowForm true (setEditingTask None st).

Definition onClose (st : State) : State :=
  setFormSubmitError "" (setEditingTask None (setShowForm false st)).

(** [onSubmit={editingTask ? handleUpdateTask : handleCreateTask}] *)
Definition onSubmit (db : Supabase) (uid : string) (d : PartialTask) (st : State)
  : State * option string :=
  match editingTask st with
  | Some _ => handleUpdateTask db uid d st
  | None => handleCreateTask db uid d st
  end.

(** ** Strings and patterns *)

(** A character of a [string] stands for one UTF-16 code unit of the
    text, below 256. *)

(** White space as [String.prototype.trim] and the class [\s] take it,
    among the code units below 256: tab, line feed, vertical tab, form
    feed, carriage return, space and no-break space. *)
Definition is_space (a : ascii) : bool :=
  let n := N_of_ascii a in
  ((9 <=? n) && (n <=? 13) || (n =? 32) || (n =? 160))%N.

(** The class [[a-zA-Z0-9]]. *)
Definition is_alnum (a : ascii) : bool :=
  let n := N_of_ascii a in
  ((97 <=? n) && (n <=? 122) || (65 <=? n) && (n <=? 90) || (48 <=? n) && (n <=? 57))%N.

Fixpoint trim_start (l : list ascii) : list ascii :=
  match l with
  | [] => []
  | a :: l' => if is_space a then trim_start l' else l
  end.

(** [s.trim()] *)
Definition trim (s : string) : string :=
  string_of_list_ascii
    (rev (trim_start (rev (trim_start (list_ascii_of_string s))))).

(** [s.length] *)
Definition length_of (s : string) : Z := Z.of_nat (String.length s).

(** The patterns the forms use are built from character classes,
    sequence and repetition. [test] asks whether some part of the
    string matches; matching goes by derivatives, one character at a
    time. *)
Inductive Regex :=
| Nothing
| Eps
| Class (p : ascii → bool)
| Seq (r1 r2 : Regex)
| Alt (r1 r2 : Regex)
| Star (r : Regex).

Fixpoint nullable (r : Regex) : bool :=
  match r with
  | Nothing => false
  | Eps => true
  | Class _ => false
  | Seq r1 r2 => nullable r1 && nullable r2
  | Alt r1 r2 => nullable r1 || nullable r2
  | Star _ => true
  end.

Fixpoint derive (a : ascii) (r : Regex) : Regex :=
  match r with
  | Nothing => Nothing
  | Eps => Nothing
  | Class p => if p a then Eps else Nothing
  | Seq r1 r2 =>
      if nullable r1 then Alt (Seq (derive a r1) r2) (derive a r2)
      else Seq (derive a r1) r2
  | Alt r1 r2 => Alt (derive a r1) (derive a r2)
  | Star r' => Seq (derive a r') (Star r')
  end.

Fixpoint matches (r : Regex) (l : list ascii) : bool :=
  match l with
  | [] => nullable r
  | a :: l' => matches (derive a r) l'
  end.

(** [r+], one character [c], and any character. *)
Definition Plus (r : Regex) : Regex := Seq r (Star r).
Definition Char (c : ascii) : Regex := Class (λ a, bool_decide (a = c)).
Definition Any : Regex := Class (λ _, true).

(** [/r/.test(s)] for a pattern without anchors. *)
Definition test (r : Regex) (s : string) : bool :=
  matches (Seq (Star Any) (Seq r (Star Any))) (list_ascii_of_string s).

(** [\S] *)
Definition NonSpace : Regex := Class (λ a, negb (is_space a)).

(** [/[a-zA-Z0-9]/] *)
Definition alnum_pattern : Regex := Class is_alnum.

(** [/\S+@\S+\.\S+/] *)
Definition email_pattern : Regex :=
  Seq (Plus NonSpace) (Seq (Char "@") (Seq (Plus NonSpace) (Seq (Char ".") (Plus NonSpace)))).

(** ** The task form ([TaskForm]) *)

(** The state variables of the form; [priority] and [status] are typed
    by their three values. *)
Record TaskForm := mkTaskForm {
  tf_title : string;
  tf_description : string;
  tf_category : string;
  tf_priority : Priority;
  tf_status : Status;
  tf_dueDate : string;
  tf_errors : gmap string string;
  internalSubmitError : string
}.

(** The effect that fills the form: from the task being edited, or
    with the first of [categories] for a new task. *)
Definition TaskForm_fill (task : option Task) (cats : list string) : TaskForm :=
  match task with
  | Some t =>
      mkTaskForm (title t) (description t) (category t) (priority t) (status t)
                 (default "" (due_date t)) ∅ ""
  | None =>
      mkTaskForm "" "" (match cats with c :: _ => c | [] => "Work" end) Medium Todo "" ∅ ""
  end.

(** [if (errors.k) setErrors(prev => { ...; delete newErrors.k; ... })] *)
Definition clear_error (k : string) (errors : gmap string string) : gmap string string :=
  match errors !! k with
  | Some m => if bool_decide (m = "") then errors else delete k errors
  | None => errors
  end.

(** [onChange] of the title and description inputs: a longer text is
    not taken. *)
Definition TaskForm_type_title (v : string) (f : TaskForm) : TaskForm :=
  if length_of v <=? 100
  then mkTaskForm v (tf_description f) (tf_category f) (tf_priority f) (tf_status f)
                  (tf_dueDate f) (clear_error "title" (tf_errors f)) (internalSubmitError f)
  else f.

Definition TaskForm_type_description (v : string) (f : TaskForm) : TaskForm :=
  if length_of v <=? 1000
  then mkTaskForm (tf_title f) v (tf_category f) (tf_priority f) (tf_status f)
                  (tf_dueDate f) (tf_errors f) (internalSubmitError f)
  else f.

(** The object [newErrors] that [validateForm] builds. [now] is the
    time of [new Date()]. *)
Definition TaskForm_newErrors (getTime : string → Z) (setHours0 : Z → Z) (now : Z)
    (f : TaskForm) : gmap string string :=
  let newErrors : gmap string string := ∅ in
  let newErrors :=
    if bool_decide (trim (tf_title f) = "") then
      <["title" := "Title is required"]> newErrors
    else if negb (test alnum_pattern (tf_title f)) then
      <["title" := "Title must contain at least one letter or number"]> newErrors
    else if 100 <? length_of (tf_title f) then
      <["title" := "Title must be 100 characters or less"]> newErrors
    else newErrors in
  let newErrors :=
    if 1000 <? length_of (tf_description f) then
      <["description" := "Description must be 1000 characters or less"]> newErrors
    else newErrors in
  let newErrors :=
    if bool_decide (priority_name (tf_priority f) = "") then
      <["priority" := "Priority is required"]> newErrors
    else newErrors in
  let newErrors :=
    if bool_decide (tf_dueDate f = "") then
      <["dueDate" := "Due date is required"]> newErrors
    else if setHours0 (getTime (tf_dueDate f)) <? setHours0 now then
      <["dueDate" := "Due date cannot be in the past"]> newErrors
    else newErrors in
  newErrors.

Definition TaskForm_setErrors (e : gmap string string) (f : TaskForm) : TaskForm :=
  mkTaskForm (tf_title f) (tf_description f) (tf_category f) (tf_priority f) (tf_status f)
             (tf_dueDate f) e (internalSubmitError f).

Definition setInternalSubmitError (m : string) (f : TaskForm) : TaskForm :=
  mkTaskForm (tf_title f) (tf_description f) (tf_category f) (tf_priority f) (tf_status f)
             (tf_dueDate f) (tf_errors f) m.

(** [validateForm]: the form with its errors set, and whether there
    are none. *)
Definition TaskForm_validateForm (getTime : string → Z) (setHours0 : Z → Z) (now : Z)
    (f : TaskForm) : TaskForm * bool :=
  let newErrors := TaskForm_newErrors getTime setHours0 now f in
  (TaskForm_setErrors newErrors f, bool_decide (size newErrors = 0%nat)).

(** The object given to [onSubmit]. *)
Definition TaskForm_data (f : TaskForm) : PartialTask :=
  mkPartial None None (Some (tf_title f)) (Some (tf_description f)) (Some (tf_category f))
            (Some (tf_priority f)) (Some (tf_status f))
            (Some (if bool_decide (tf_dueDate f = "") then None else Some (tf_dueDate f)))
            None None None.

(** [handleSubmit] of the form, over the state [S] of whoever gave
    [onSubmit]. *)
Definition TaskForm_handleSubmit {S : Type} (getTime : string → Z) (setHours0 : Z → Z)
    (now : Z) (submit : PartialTask → S → S * option string) (f : TaskForm) (s : S)
  : TaskForm * S :=
  let f1 := setInternalSubmitError "" f in
  let '(f2, valid) := TaskForm_validateForm getTime setHours0 now f1 in
  if valid then
    let '(s', rejected) := submit (TaskForm_data f2) s in
    match rejected with
    | Some m => (setInternalSubmitError (or_else m "An error occurred while saving the task.") f2, s')
    | None => (f2, s')
    end
  else (f2, s).

(** ** Sign-up and sign-in forms ([SignupForm], [AuthForm]) *)

Record SignupForm := mkSignupForm {
  fullName : string;
  email : string;
  password : string;
  confirmPassword : string
}.

(** The errors [validateForm] of [SignupForm] finds. *)
Definition SignupForm_newErrors (f : SignupForm) : gmap string string :=
  let newErrors : gmap string string := ∅ in
  let newErrors :=
    if bool_decide (trim (fullName f) = "") then
      <["fullName" := "Full name is required"]> newErrors
    else if length_of (trim (fullName f)) <? 2 then
      <["fullName" := "Full name must be at least 2 characters"]> newErrors
    else newErrors in
  let newErrors :=
    if bool_decide (email f = "") then <["email" := "Email is required"]> newErrors
    else if negb (test email_pattern (email f)) then
      <["email" := "Email address is invalid"]> newErrors
    else newErrors in
  let newErrors :=
    if bool_decide (password f = "") then <["password" := "Password is required"]> newErrors
    else if length_of (password f) <? 6 then
      <["password" := "Password must be at least 6 characters"]> newErrors
    else newErrors in
  let newErrors :=
    if bool_decide (confirmPassword f = "") then
      <["confirmPassword" := "Please confirm your password"]> newErrors
    else if negb (bool_decide (password f = confirmPassword f)) then
      <["confirmPassword" := "Passwords do not match"]> newErrors
    else newErrors in
  newErrors.

Definition SignupForm_validateForm (f : SignupForm) : bool :=
  bool_decide (size (SignupForm_newErrors f) = 0%nat).

(** [AuthForm] holds the same fields and the mode [isLogin]. *)
Definition AuthForm_errors (isLogin : bool) (f : SignupForm) : gmap string string :=
  let errors : gmap string string := ∅ in
  if negb isLogin then
    let errors :=
      if bool_decide (trim (fullName f) = "") then
        <["fullName" := "Full name is required"]> errors
      else if length_of (trim (fullName f)) <? 2 then
        <["fullName" := "Full name must be at least 2 characters"]> errors
      else errors in
    let errors :=
      if bool_decide (email f = "") then <["email" := "Email is required"]> errors
      else if negb (test email_pattern (email f)) then
        <["email" := "Email address is invalid"]> errors
      else errors in
    let errors :=
      if bool_decide (password f = "") then <["password" := "Password is required"]> errors
      else if length_of (password f) <? 6 then
        <["password" := "Password must be at least 6 characters"]> errors
      else errors in
    let errors :=
      if bool_decide (confirmPassword f = "") then
        <["confirmPassword" := "Please confirm your password"]> errors
      else if negb (bool_decide (password f = confirmPassword f)) then
        <["confirmPassword" := "Passwords do not match"]> errors
      else errors in
    errors
  else
    let errors :=
      if bool_decide (email f = "") then <["email" := "Email is required"]> errors
      else errors in
    let errors :=
      if bool_decide (password f = "") then <["password" := "Password is required"]> errors
      else errors in
    errors.

Definition AuthForm_validateForm (isLogin : bool) (f : SignupForm) : bool :=
  bool_decide (size (AuthForm_errors isLogin f) = 0%nat).

(** ** Notions used in the further statements *)

(** [a] stands before [b] in [l]. *)
Definition precedes {A : Type} (a b : A) (l : list A) : Prop :=
  ∃ l1 l2 l3 : list A, l = (l1 ++ a :: l2 ++ b :: l3)%list.

(** Every cached task belongs to the user. *)
Definition owned_by (uid : string) (cache : list Task) : Prop :=
  ∀ t, t ∈ cache → user_id t = uid.

(** The words a pattern stands for. *)
Inductive lang : Regex → list ascii → Prop :=
| lang_eps : lang Eps []
| lang_class p a : p a = true → lang (Class p) [a]
| lang_seq r1 r2 l1 l2 : lang r1 l1 → lang r2 l2 → lang (Seq r1 r2) (l1 ++ l2)
| lang_alt_l r1 r2 l : lang r1 l → lang (Alt r1 r2) l
| lang_alt_r r1 r2 l : lang r2 l → lang (Alt r1 r2) l
| lang_star_nil r : lang (Star r) []
| lang_star_cons r l1 l2 : lang r l1 → lang (Star r) l2 → lang (Star r) (l1 ++ l2).

(** What the user can enter in the task form: the [onChange] and
    [onClick] handlers of its inputs. *)
Inductive FormInput :=
| TypeTitle (v : string)
| TypeDescription (v : string)
| PickCategory (v : string)
| PickPriority (p : Priority)
| PickStatus (s : Status)
| PickDueDate (v : string).

Definition TaskForm_input (i : FormInput) (f : TaskForm) : TaskForm :=
  match i with
  | TypeTitle v => TaskForm_type_title v f
  | TypeDescription v => TaskForm_type_description v f
  | PickCategory v =>
      mkTaskForm (tf_title f) (tf_description f) v (tf_priority f) (tf_status f)
                 (tf_dueDate f) (tf_errors f) (internalSubmitError f)
  | PickPriority p =>
      mkTaskForm (tf_title f) (tf_description f) (tf_category f) p (tf_status f)
                 (tf_dueDate f) (clear_error "priority" (tf_errors f)) (internalSubmitError f)
  | PickStatus s =>
      mkTaskForm (tf_title f) (tf_description f) (tf_category f) (tf_priority f) s
                 (tf_dueDate f) (tf_errors f) (internalSubmitError f)
  | PickDueDate v =>
      mkTaskForm (tf_title f) (tf_description f) (tf_category f) (tf_priority f) (tf_status f)
                 v (clear_error "dueDate" (tf_errors f)) (internalSubmitError f)
  end.

(** The shape of a string that [email_pattern] accepts: somewhere in it
    an at sign between two runs of characters that are not white space,
    the second run followed by a dot and a third such run. *)
Definition email_shape (s : string) : Prop :=
  ∃ pre u v w post : list ascii,
    list_ascii_of_string s = (pre ++ u ++ "@"%char :: v ++ "."%char :: w ++ post)%list ∧
    u ≠ [] ∧ v ≠ [] ∧ w ≠ [] ∧
    Forall (λ a, is_space a = false) (u ++ v ++ w)%list.

(** A user for the sample data. *)
Definition user1 : User := mkUser "u1" "me@example.org".

(** * Properties *)

(** ** Facts about the array methods *)

Section ArrayFacts.
Implicit Types (l current : list Task) (t n : Task) (x : string).

Lemma has_id_true x t : has_id x t = true ↔ id t = x.
Proof. unfold has_id. apply bool_decide_eq_true. Qed.

Lemma has_id_false x t : has_id x t = false ↔ id t ≠ x.
Proof. unfold has_id. apply bool_decide_eq_false. Qed.

Lemma some_id_true x l : some_id x l = true ↔ x ∈ ids l.
Proof.
  unfold some_id, ids. induction l as [|t l IH]; simpl.
  - split; [discriminate | intros H; inversion H].
  - rewrite orb_true_iff, IH, has_id_true, elem_of_cons.
    split; (intros [H|H]; [left; congruence | by right]).
Qed.

Lemma some_id_false x l : some_id x l = false ↔ x ∉ ids l.
Proof. rewrite <- some_id_true. destruct (some_id x l); split; congruence. Qed.

Lemma find_id_Some x l t : find_id x l = Some t → t ∈ l ∧ id t = x.
Proof.
  unfold find_id. intros H. apply find_some in H as [Hin Hid].
  split; [by apply list_elem_of_In | by apply has_id_true].
Qed.

Lemma find_id_None x l : find_id x l = None ↔ x ∉ ids l.
Proof.
  unfold find_id, ids. induction l as [|t l IH]; simpl.
  - split; [intros _ H; inversion H | done].
  - destruct (has_id x t) eqn:E.
    + apply has_id_true in E. split; [discriminate | intros H; destruct H; subst; left].
    + apply has_id_false in E. rewrite IH, not_elem_of_cons.
      split; [intros H; split; [congruence | done] | by intros [_ H]].
Qed.

(** With unique ids the record [find] returns is the only one of
    that id. *)
Lemma find_id_unique x l t u :
  NoDup (ids l) → find_id x l = Some t → u ∈ l → id u = x → u = t.
Proof.
  unfold find_id, ids. induction l as [|a l IH]; simpl; intros Hnd Hf Hu Hx.
  - inversion Hu.
  - apply NoDup_cons in Hnd as [Ha Hnd]. destruct (has_id x a) eqn:E.
    + injection Hf as ->. apply has_id_true in E.
      apply elem_of_cons in Hu as [->|Hu]; [done|].
      exfalso. apply Ha. rewrite E, <- Hx. by apply list_elem_of_fmap_2.
    + apply has_id_false in E. apply elem_of_cons in Hu as [->|Hu]; [done|].
      by apply IH.
Qed.

Lemma find_id_elem x l t : NoDup (ids l) → t ∈ l → id t = x → find_id x l = Some t.
Proof.
  intros Hnd Ht Hx. destruct (find_id x l) as [u|] eqn:E.
  - f_equal. symmetry. by eapply find_id_unique.
  - apply find_id_None in E. exfalso. apply E. rewrite <- Hx.
    by apply list_elem_of_fmap_2.
Qed.

Lemma replace_id_absent x r l : x ∉ ids l → replace_id x r l = l.
Proof.
  unfold replace_id, ids. induction l as [|t l IH]; csimpl; [done|].
  rewrite not_elem_of_cons. intros [Hne Hl]. rewrite IH by done.
  assert (has_id x t = false) as -> by (apply has_id_false; congruence). done.
Qed.

(** Replacing by a record of the same id keeps the ids. *)
Lemma ids_replace_id r l : ids (replace_id (id r) r l) = ids l.
Proof.
  unfold replace_id, ids. induction l as [|t l IH]; csimpl; [done|].
  rewrite IH. destruct (has_id (id r) t) eqn:E; [|done].
  apply has_id_true in E. by rewrite E.
Qed.

Lemma ids_alter_id x (f : Task → Task) l :
  (∀ t, id (f t) = id t) → ids (alter_id x f l) = ids l.
Proof.
  intros Hf. unfold alter_id, ids. induction l as [|t l IH]; csimpl; [done|].
  rewrite IH. destruct (has_id x t); by rewrite ?Hf.
Qed.

Lemma remove_id_absent x l : x ∉ ids l → remove_id x l = l.
Proof.
  unfold remove_id, ids. induction l as [|t l IH]; csimpl; [done|].
  rewrite not_elem_of_cons. intros [Hne Hl].
  rewrite filter_cons_True by congruence. by rewrite IH.
Qed.

Lemma ids_remove_id x l : x ∉ ids (remove_id x l).
Proof.
  unfold remove_id, ids. intros H. apply list_elem_of_fmap in H as (t & -> & Ht).
  apply list_elem_of_filter in Ht as [Hne _]. done.
Qed.

Lemma ids_filter_NoDup (P : Task → Prop) `{∀ t, Decision (P t)} l :
  NoDup (ids l) → NoDup (ids (filter P l)).
Proof.
  unfold ids. intros Hnd. eapply sublist_NoDup; [exact Hnd|].
  apply fmap_sublist, sublist_filter.
Qed.
End ArrayFacts.

(** ** Change-feed ingestion *)

Section Feed.
Implicit Types (current : list Task) (n : Task) (uid : string) (p : Payload).

Lemma feed_insert_present n current : id n ∈ ids current → feed_insert n current = current.
Proof. intros H. unfold feed_insert. apply some_id_true in H. by rewrite H. Qed.

Lemma feed_insert_absent n current :
  id n ∉ ids current → feed_insert n current = n :: current.
Proof. intros H. unfold feed_insert. apply some_id_false in H. by rewrite H. Qed.

Lemma feed_insert_idem n current :
  feed_insert n (feed_insert n current) = feed_insert n current.
Proof.
  destruct (decide (id n ∈ ids current)) as [H|H].
  - by rewrite !(feed_insert_present n current H).
  - rewrite (feed_insert_absent _ _ H). apply feed_insert_present. csimpl. left.
Qed.

Lemma feed_update_lookup n current (i : nat) :
  feed_update n current !! i =
    (λ t, if decide (id t = id n) then n else t) <$> current !! i.
Proof.
  unfold feed_update, replace_id. rewrite list_lookup_fmap.
  destruct (current !! i) as [t|]; simpl; [|done].
  unfold has_id. by destruct (decide (id t = id n)); [rewrite bool_decide_eq_true_2|rewrite bool_decide_eq_false_2].
Qed.

Lemma feed_update_idem n current :
  feed_update n (feed_update n current) = feed_update n current.
Proof.
  unfold feed_update, replace_id. rewrite <- list_fmap_compose.
  apply list_fmap_ext. intros _ t _. simpl.
  destruct (has_id (id n) t) eqn:E; [|by rewrite E].
  by destruct (has_id (id n) n).
Qed.

Lemma feed_delete_some o x current :
  img_id o = Some x → feed_delete o current = remove_id x current.
Proof.
  intros Ho. unfold feed_delete, remove_id. apply list_filter_iff.
  intros t. rewrite Ho. split; congruence.
Qed.

Lemma feed_delete_idem o current :
  feed_delete o (feed_delete o current) = feed_delete o current.
Proof.
  unfold feed_delete. rewrite list_filter_filter. apply list_filter_iff.
  intros t. tauto.
Qed.

(** Every event, kept or discarded, is idempotent on the cache. *)
Lemma subscribeToTasks_idem uid p current :
  subscribeToTasks uid p (subscribeToTasks uid p current) = subscribeToTasks uid p current.
Proof.
  unfold subscribeToTasks.
  destruct (new_is_foreign uid p); [done|]. destruct (old_is_foreign uid p); [done|].
  destruct p; auto using feed_insert_idem, feed_update_idem, feed_delete_idem.
Qed.

(** The callback never introduces a second record of an id. *)
Lemma subscribeToTasks_NoDup uid p current :
  NoDup (ids current) → NoDup (ids (subscribeToTasks uid p current)).
Proof.
  intros Hnd. unfold subscribeToTasks.
  destruct (new_is_foreign uid p); [done|]. destruct (old_is_foreign uid p); [done|].
  destruct p as [n o|n o|n o].
  - destruct (decide (id n ∈ ids current)) as [H|H].
    + by rewrite feed_insert_present.
    + rewrite feed_insert_absent by done. simpl. by apply NoDup_cons.
  - unfold feed_update. by rewrite ids_replace_id.
  - unfold feed_delete. by apply ids_filter_NoDup.
Qed.
End Feed.

(** C4, as amended: an event that passes the ownership tests is folded
    into the cache as follows. An INSERT leaves the cache as it is when
    the id is present and puts the row in front otherwise. An UPDATE
    replaces, position by position, the record of that id by the row of
    the event; when the id is absent the cache stays as it is, nothing
    is added. A DELETE removes the records of that id, keeps the others
    in order, and changes nothing when the id is absent. Ingesting the
    same event twice gives the cache that ingesting it once gives. *)
Theorem subscribeToTasks_ingestion (uid : string) (p : Payload) (current : list Task) :
  for_current_user uid p = true →
  match p with
  | INSERT n _ =>
      (id n ∈ ids current → subscribeToTasks uid p current = current) ∧
      (id n ∉ ids current → subscribeToTasks uid p current = n :: current)
  | UPDATE n _ =>
      (∀ i : nat, subscribeToTasks uid p current !! i =
                  (λ t, if decide (id t = id n) then n else t) <$> current !! i) ∧
      (id n ∉ ids current → subscribeToTasks uid p current = current)
  | DELETE _ o =>
      ∀ x, img_id o = Some x →
        (∀ t, t ∈ subscribeToTasks uid p current ↔ t ∈ current ∧ id t ≠ x) ∧
        subscribeToTasks uid p current `sublist_of` current ∧
        (x ∉ ids current → subscribeToTasks uid p current = current)
  end ∧
  subscribeToTasks uid p (subscribeToTasks uid p current) = subscribeToTasks uid p current.
Proof.
  intros Hown. split; [|apply subscribeToTasks_idem].
  unfold for_current_user in Hown. apply andb_true_iff in Hown as [Hn Ho].
  apply negb_true_iff in Hn, Ho. unfold subscribeToTasks. rewrite Hn, Ho.
  destruct p as [n o|n o|n o].
  - split; [apply feed_insert_present | apply feed_insert_absent].
  - split; [apply feed_update_lookup | apply replace_id_absent].
  - intros x Hx. rewrite (feed_delete_some _ _ _ Hx). split; [|split].
    + intros t. unfold remove_id. rewrite list_elem_of_filter. tauto.
    + apply sublist_filter.
    + apply remove_id_absent.
Qed.

Lemma subscribeToTasks_ingestion_witness :
  for_current_user "u1" (INSERT task_a None) = true ∧
  subscribeToTasks "u1" (INSERT task_a None) [task_b] = [task_a; task_b].
Proof.
  split; [reflexivity|].
  destruct (subscribeToTasks_ingestion "u1" (INSERT task_a None) [task_b] eq_refl)
    as [[_ Habsent] _].
  apply Habsent. apply (bool_decide_unpack _). vm_compute. exact I.
Defined.

(** C4 as stated fails where it has an UPDATE add a row whose id the
    cache does not hold: the cache stays empty. *)
Lemma feed_update_does_not_insert :
  for_current_user "u1" (UPDATE task_a None) = true ∧
  subscribeToTasks "u1" (UPDATE task_a None) [] = [] ∧
  task_a ∉ subscribeToTasks "u1" (UPDATE task_a None) [].
Proof. split; [reflexivity|]. split; [reflexivity|]. vm_compute. inversion 1. Qed.

(** ** Selection set *)

(** C10. Toggling an id adds it when it is not selected and removes it
    when it is, and toggling the same id twice gives back the selection
    one started from. *)
Theorem toggleTaskSelection_involution (s : gset string) (x : string) :
  (x ∉ s → toggleTaskSelection s x = s ∪ {[x]}) ∧
  (x ∈ s → toggleTaskSelection s x = s ∖ {[x]}) ∧
  toggleTaskSelection (toggleTaskSelection s x) x = s.
Proof.
  unfold toggleTaskSelection. split; [|split].
  - intros H. by rewrite decide_False.
  - intros H. by rewrite decide_True.
  - destruct (decide (x ∈ s)) as [H|H].
    + rewrite decide_False by set_solver.
      apply set_eq. intros y. destruct (decide (y = x)); set_solver.
    + rewrite decide_True by set_solver. set_solver.
Qed.

Lemma toggleTaskSelection_involution_witness :
  toggleTaskSelection ∅ "a" = ∅ ∪ {["a"]} ∧
  toggleTaskSelection {["a"]} "a" = {["a"]} ∖ {["a"]}.
Proof.
  split.
  - apply (proj1 (toggleTaskSelection_involution ∅ "a")). set_solver.
  - apply (proj1 (proj2 (toggleTaskSelection_involution {["a"]} "a"))). set_solver.
Defined.

(** When the selection lies within the visible list, whose ids are
    distinct, the size test of [selectAllTasks] does decide whether
    every visible id is selected. *)
Lemma selectAllTasks_within_view (s : gset string) (visible : list Task) :
  NoDup (ids visible) → s ⊆ list_to_set (ids visible) →
  ((∀ x, x ∈ ids visible → x ∈ s) → selectAllTasks s visible = ∅) ∧
  (¬ (∀ x, x ∈ ids visible → x ∈ s) → selectAllTasks s visible = list_to_set (ids visible)).
Proof.
  intros Hnd Hsub. unfold selectAllTasks.
  assert (size (list_to_set (ids visible) : gset string) = length visible) as Hsize.
  { rewrite size_list_to_set by done. unfold ids. by rewrite length_fmap. }
  split; intros Hall.
  - rewrite decide_True; [done|]. rewrite <- Hsize. f_equal.
    apply set_eq. intros y. split; [apply Hsub|].
    intros H. apply Hall. by apply elem_of_list_to_set in H.
  - rewrite decide_False; [done|]. intros Heq. apply Hall. intros x Hx.
    assert (s = list_to_set (ids visible)) as ->; [|by apply elem_of_list_to_set].
    apply set_subseteq_size_eq; [done|]. rewrite Hsize, Heq. done.
Qed.

(** C9 fails on the code. The user selects task a, then filters by the
    category Personal, which shows task b alone. One id is selected and
    one task is visible, so select-all takes everything to be selected
    and clears the selection, although b, the one visible task, was not
    selected; the claim has the selection become the visible ids. *)
Theorem selectAllTasks_size_test_clears :
  let s := toggleTaskSelection ∅ "a" in
  let visible := visible_at (20430 * day_ms) [task_a; task_b] Newest
                   (mkFilters "Personal" "all" "all" AllDates) in
  ids visible = ["b"] ∧ ("b" ∉ s) ∧
  selectAllTasks s visible = ∅ ∧
  selectAllTasks s visible ≠ list_to_set (ids visible).
Proof.
  assert (ids (visible_at (20430 * day_ms) [task_a; task_b] Newest
                 (mkFilters "Personal" "all" "all" AllDates)) = ["b"]) as Hv
    by (vm_compute; reflexivity).
  assert (visible_at (20430 * day_ms) [task_a; task_b] Newest
            (mkFilters "Personal" "all" "all" AllDates) = [task_b]) as Hl
    by (vm_compute; reflexivity).
  cbv zeta. rewrite Hl. split; [done|].
  assert (toggleTaskSelection ∅ "a" = {["a"]}) as ->.
  { unfold toggleTaskSelection. rewrite decide_False by set_solver. set_solver. }
  split; [set_solver|].
  unfold selectAllTasks. rewrite size_singleton. simpl.
  split; [done|]. intros H. assert ("b" ∈ (∅ : gset string)); [|set_solver].
  rewrite H. set_solver.
Qed.

(** The other way round: every visible id is selected, together with
    one that the filter hides. The sizes differ, so select-all narrows
    the selection to the visible ids; the claim has it cleared. *)
Lemma selectAllTasks_size_test_keeps :
  let s : gset string := {["a"; "b"]} in
  (∀ x, x ∈ ids [task_a] → x ∈ s) ∧
  selectAllTasks s [task_a] = {["a"]} ∧ selectAllTasks s [task_a] ≠ ∅.
Proof.
  cbv zeta. split; [set_solver|].
  assert (selectAllTasks {["a"; "b"]} [task_a] = {["a"]}) as ->.
  { unfold selectAllTasks. rewrite decide_False.
    - set_solver.
    - rewrite size_union by set_solver. rewrite !size_singleton. simpl. lia. }
  split; [done|]. set_solver.
Qed.

(** ** Selection and cache *)

Section SelectionPruning.
Implicit Types (l : list Task) (s : gset string) (st : State) (db : Supabase).



End SelectionPruning.

(** C3 fails on the code. Task a is cached and selected; a DELETE event
    for it arrives on the change feed. The callback removes a from the
    cache and leaves the selection as it was, so the selection names an
    id the cache no longer holds. *)
Theorem feed_delete_keeps_selection :
  let st := state_of [task_a; task_b] {["a"]} in
  let st' := on_feed "u1" (DELETE None (mkImage (Some "a") (Some "u1"))) st in
  selection_in_cache st ∧
  tasks st' = [task_b] ∧ selectedTasks st' = {["a"]} ∧
  ¬ selection_in_cache st'.
Proof.
  cbv zeta. split; [|split; [|split]].
  - intros x Hx. simpl in *. apply elem_of_singleton in Hx as ->. left.
  - reflexivity.
  - reflexivity.
  - intros H. specialize (H "a"). simpl in H.
    assert ("a" ∈ ids [task_b]) as Hin by (apply H; set_solver).
    vm_compute in Hin. apply list_elem_of_singleton in Hin. discriminate.
Qed.

(** ** Uniqueness of ids *)

Section Uniqueness.
Implicit Types (l current : list Task) (s : gset string).

Lemma tasks_report st0 m fb st : tasks (report st0 m fb st) = tasks st.
Proof. unfold report. by destruct (decide (formSubmitError st0 = "")). Qed.

Lemma ids_bulk_complete s l : ids (bulk_complete s l) = ids l.
Proof.
  unfold bulk_complete, ids. rewrite <- list_fmap_compose. apply list_fmap_ext.
  intros _ t _. simpl. by destruct (decide (id t ∈ s)).
Qed.

Lemma ids_bulk_complete_rollback (orig : list Task) l :
  ids (bulk_complete_rollback orig l) = ids l.
Proof.
  unfold bulk_complete_rollback, ids. rewrite <- list_fmap_compose. apply list_fmap_ext.
  intros _ t _. simpl. destruct (find_id (id t) orig) as [o|] eqn:E; [|done].
  by apply find_id_Some in E as [_ ->].
Qed.

(** The updaters that replace or remove records keep ids distinct. *)
Lemma in_place_updaters_NoDup l :
  NoDup (ids l) →
  (∀ e, NoDup (ids (update_rollback e l))) ∧
  (∀ x, NoDup (ids (remove_id x l))) ∧
  (∀ s, NoDup (ids (bulk_remove s l))) ∧
  (∀ s, NoDup (ids (bulk_complete s l))) ∧
  (∀ orig, NoDup (ids (bulk_complete_rollback orig l))) ∧
  (∀ x c, NoDup (ids (alter_id x (with_completed c) l))) ∧
  (∀ x (v : Status), NoDup (ids (alter_id x (with_status v) l))).
Proof.
  intros Hnd. repeat split; intros.
  - unfold update_rollback. by rewrite ids_replace_id.
  - by apply ids_filter_NoDup.
  - by apply ids_filter_NoDup.
  - by rewrite ids_bulk_complete.
  - by rewrite ids_bulk_complete_rollback.
  - by rewrite ids_alter_id.
  - by rewrite ids_alter_id.
Qed.
End Uniqueness.

(** C2 fails on the code. The cache is empty and the user creates
    "Buy milk". The lookup finds no such title, the insert is sent, and
    the INSERT event for the new row a reaches the change feed before
    the insert's own answer: the callback puts a into the cache. The
    answer then arrives and the handler puts a in front of the cache
    without looking for its id, so the cache holds a twice. *)
Theorem create_after_echo_duplicates :
  let st0 := state_of [] ∅ in
  let db := db_inserting task_a in
  let sent := setShowForm false st0 in
  let echoed := on_feed "u1" (INSERT task_a None) sent in
  let settled := (create_settle st0 (insert_select db (insert_row "u1" buy_milk)) echoed).1 in
  title_precheck db "u1" (p_title buy_milk) st0 = None ∧
  tasks echoed = [task_a] ∧
  tasks settled = [task_a; task_a] ∧
  ¬ NoDup (ids (tasks settled)).
Proof.
  cbv zeta. split; [reflexivity|]. split; [reflexivity|]. split; [reflexivity|].
  intros H. vm_compute in H. apply NoDup_cons in H as [H _]. apply H. left.
Qed.

(** ** Rollback *)

Section Rollback.
Implicit Types (l : list Task) (s : gset string) (st : State) (db : Supabase).

Lemma title_precheck_tasks db uid t st st1 m :
  title_precheck db uid t st = Some (st1, m) → tasks st1 = tasks st.
Proof.
  unfold title_precheck. destruct (error _); [by intros [= <- _]|].
  destruct (data _) as [[|i r]|]; try done. by intros [= <- _].
Qed.

Lemma create_settle_failure st0 (r : Resp Task) st e :
  (create_settle st0 r st).2 = Some e → tasks (create_settle st0 r st).1 = tasks st.
Proof.
  unfold create_settle. destruct (error r); simpl; [intros _; apply tasks_report|].
  by destruct (data r) as [[|n r']|].
Qed.

(** No failing path of create writes the cache. *)
Lemma handleCreateTask_failure db uid d st e :
  (handleCreateTask db uid d st).2 = Some e →
  tasks (handleCreateTask db uid d st).1 = tasks st.
Proof.
  unfold handleCreateTask.
  destruct (title_precheck db uid (p_title d) st) as [[st1 m]|] eqn:Hpre; simpl.
  - intros _. rewrite tasks_report. by eapply title_precheck_tasks.
  - intros H. by rewrite (create_settle_failure _ _ _ _ H).
Qed.

Lemma alter_id_undo x (f g : Task → Task) l :
  (∀ t, t ∈ l → id t = x → id (f t) = x ∧ g (f t) = t) →
  alter_id x g (alter_id x f l) = l.
Proof.
  intros H. unfold alter_id. rewrite <- list_fmap_compose.
  rewrite <- (list_fmap_id l) at 2. apply list_fmap_ext. intros i t Hi. simpl.
  destruct (has_id x t) eqn:E; [|by rewrite E].
  apply has_id_true in E. destruct (H t) as [Hid Hg]; [by eapply list_elem_of_lookup_2|done|].
  apply has_id_true in Hid. by rewrite Hid.
Qed.

(** Toggle-complete: with distinct ids, a failed update leaves the
    cache as it was. *)
Lemma handleToggleComplete_rollback db x c st err :
  NoDup (ids (tasks st)) → update_eq_id db (only_completed c) x = Some err →
  tasks (handleToggleComplete db x c st) = tasks st.
Proof.
  intros Hnd Herr. unfold handleToggleComplete.
  destruct (find_id x (tasks st)) as [task|] eqn:Hf; [|done].
  rewrite Herr. simpl. apply alter_id_undo. intros t Ht Hid. split; [done|].
  rewrite <- (find_id_unique x (tasks st) task t) by done. by destruct t.
Qed.

(** Status change: likewise. *)
Lemma handleStatusChange_rollback db x v st err :
  NoDup (ids (tasks st)) → update_eq_id db (only_status v) x = Some err →
  tasks (handleStatusChange db x v st) = tasks st.
Proof.
  intros Hnd Herr. unfold handleStatusChange.
  destruct (find_id x (tasks st)) as [task|] eqn:Hf; [|done].
  rewrite Herr. simpl. apply alter_id_undo. intros t Ht Hid. split; [done|].
  rewrite <- (find_id_unique x (tasks st) task t) by done. by destruct t.
Qed.

(** Update: when the task being edited is the cached record of its id
    and the edit leaves the id alone, a failed update leaves the cache
    as it was. *)
Lemma handleUpdateTask_rollback db uid d st e :
  editingTask st = Some e →
  (∀ t, t ∈ tasks st → id t = id e → t = e) →
  p_id d = None →
  (handleUpdateTask db uid d st).2 ≠ None ∨ update_eq_id db d (id e) ≠ None →
  tasks (handleUpdateTask db uid d st).1 = tasks st.
Proof.
  intros He Hcached Hid Hfail. unfold handleUpdateTask in *. rewrite He in *.
  destruct (if title_changes d e then title_precheck db uid (p_title d) st else None)
    as [[st1 m]|] eqn:Hpre.
  - simpl. rewrite tasks_report.
    destruct (title_changes d e); [|done]. unfold title_precheck in Hpre.
    destruct (error _); [by injection Hpre as <- _|].
    destruct (data _) as [[|i r]|]; try done. by injection Hpre as <- _.
  - destruct (update_eq_id db d (id e)) as [err|]; simpl in *.
    + rewrite tasks_report. simpl. unfold update_rollback, update_optimistic.
      assert (∀ l, replace_id (id e) e (replace_id (id e) e l) = replace_id (id e) e l)
        as -> by (intros l; apply (feed_update_idem e l)).
      unfold replace_id. rewrite <- list_fmap_compose.
      rewrite <- (list_fmap_id (tasks st)) at 2. apply list_fmap_ext. intros i t Hi. simpl.
      destruct (has_id (id e) t) eqn:E.
      * apply has_id_true in E.
        assert (has_id (id e) (spread e d) = true) as ->
          by (apply has_id_true; simpl; by rewrite Hid).
        symmetry. apply Hcached; [by eapply list_elem_of_lookup_2 | done].
      * by rewrite E.
    + by destruct Hfail.
Qed.

(** Bulk complete: with distinct ids, a failed update leaves the
    cache as it was. *)
Lemma handleBulkMarkAsCompleted_rollback db st err :
  NoDup (ids (tasks st)) →
  update_in_id db completed_done (elements (selectedTasks st)) = Some err →
  tasks (handleBulkMarkAsCompleted db st) = tasks st.
Proof.
  intros Hnd Herr. unfold handleBulkMarkAsCompleted.
  destruct (decide (size (selectedTasks st) = 0%nat)); [done|].
  rewrite Herr. simpl. unfold bulk_complete_rollback, bulk_complete.
  rewrite <- list_fmap_compose. etrans; [|apply (list_fmap_id (tasks st))].
  apply list_fmap_ext. intros i t Hi. simpl.
  apply list_elem_of_lookup_2 in Hi.
  assert (id (if decide (id t ∈ selectedTasks st) then spread t completed_done else t) = id t)
    as -> by (by destruct (decide (id t ∈ selectedTasks st))).
  destruct (decide (id t ∈ selectedTasks st)) as [Hs|Hs].
  - rewrite (find_id_elem (id t) _ t); [done| |by apply list_elem_of_filter|done].
    by apply ids_filter_NoDup.
  - destruct (find_id (id t) (selected_of (selectedTasks st) (tasks st))) as [o|] eqn:E; [|done].
    apply find_id_Some in E as [Ho Hid]. apply list_elem_of_filter in Ho as [Ho _].
    by rewrite Hid in Ho.
Qed.

Lemma filter_id_singleton x l t :
  NoDup (ids l) → find_id x l = Some t → filter (λ u, id u = x) l = [t].
Proof.
  unfold find_id, ids. induction l as [|a l IH]; csimpl; intros Hnd Hf; [done|].
  apply NoDup_cons in Hnd as [Ha Hnd]. destruct (has_id x a) eqn:E.
  - injection Hf as ->. apply has_id_true in E. rewrite filter_cons_True by done.
    f_equal. rewrite E in Ha. clear IH Hnd. induction l as [|b l IH]; [done|].
    csimpl in Ha. apply not_elem_of_cons in Ha as [Hb Ha].
    rewrite filter_cons_False by congruence. by apply IH.
  - apply has_id_false in E. rewrite filter_cons_False by done. by apply IH.
Qed.

Lemma delete_rollback_perm x l t :
  NoDup (ids l) → find_id x l = Some t → delete_rollback t (remove_id x l) ≡ₚ l.
Proof.
  intros Hnd Hf. unfold delete_rollback, remove_id.
  rewrite <- (filter_id_singleton x l t) by done.
  rewrite <- (filter_app_complement (λ u, id u ≠ x) l) at 3.
  apply Permutation_app_head. erewrite (list_filter_iff (λ u, id u = x)); [done|].
  intros u. simpl. destruct (decide (id u = x)); tauto.
Qed.

(** Single delete: with distinct ids, a failed delete gives back the
    same records, in some order. *)
Lemma handleDeleteTask_rollback_perm db confirmed x st err :
  NoDup (ids (tasks st)) → delete_eq_id db x = Some err →
  tasks (handleDeleteTask db confirmed x st) ≡ₚ tasks st.
Proof.
  intros Hnd Herr. unfold handleDeleteTask. destruct confirmed; simpl; [|done].
  rewrite Herr. destruct (find_id x (tasks st)) as [t|] eqn:Hf; simpl.
  - by apply delete_rollback_perm.
  - apply find_id_None in Hf. by rewrite remove_id_absent.
Qed.

(** Bulk delete: a failed delete gives back the same records, in some
    order. *)
Lemma handleBulkDelete_rollback_perm db confirmed st err :
  delete_in_id db (elements (selectedTasks st)) = Some err →
  tasks (handleBulkDelete db confirmed st) ≡ₚ tasks st.
Proof.
  intros Herr. unfold handleBulkDelete.
  destruct (decide (size (selectedTasks st) = 0%nat)); [done|].
  destruct confirmed; simpl; [|done]. rewrite Herr. simpl.
  unfold bulk_delete_rollback, bulk_remove, selected_of.
  rewrite <- (filter_app_complement (λ u, id u ∈ selectedTasks st) (tasks st)) at 3.
  rewrite Permutation_app_comm. done.
Qed.
End Rollback.

(** C1 fails on the code. The cache holds a and b, in this order, and
    the user deletes a. The handler removes a, the backend reports an
    error, and the handler puts a back at the end of the cache: the
    cache is then b, a, not the sequence a, b it was before. *)
Theorem handleDeleteTask_rollback_reorders :
  let st := state_of [task_a; task_b] ∅ in
  let st' := handleDeleteTask db_down true "a" st in
  delete_eq_id db_down "a" = Some "network error" ∧
  tasks st' = [task_b; task_a] ∧
  tasks st' ≠ tasks st.
Proof. cbv zeta. split; [reflexivity|]. split; [reflexivity|]. discriminate. Qed.

(** Bulk delete puts the removed records back at the end as well. *)
Lemma handleBulkDelete_rollback_reorders :
  let st := state_of [task_a; task_b; task_c] {["a"]} in
  let st' := handleBulkDelete db_down true st in
  tasks st' = [task_b; task_c; task_a] ∧ tasks st' ≠ tasks st.
Proof. cbv zeta. split; [by vm_compute|]. by vm_compute. Qed.

(** ** Create *)

Lemma lookup_title_found rows uid t r :
  r ∈ rows → user_id r = uid → Some (title r) = t →
  ∃ i rest, data (lookup_title rows uid t) = Some (i :: rest).
Proof.
  intros Hr Hu Ht. unfold lookup_title. simpl.
  destruct (filter (λ r, user_id r = uid ∧ Some (title r) = t) rows) as [|a l] eqn:E.
  - exfalso. eapply (filter_nil_not_elem_of _ _ r); [exact E| |exact Hr]. done.
  - csimpl. eauto.
Qed.

Lemma create_settle_cache st0 (r : Resp Task) cur :
  tasks (create_settle st0 r cur).1 = tasks cur ∨
  ∃ newTask rest, (create_settle st0 r cur).2 = None ∧ error r = None ∧
    data r = Some (newTask :: rest) ∧
    tasks (create_settle st0 r cur).1 = newTask :: tasks cur.
Proof.
  unfold create_settle. destruct (error r) eqn:He; simpl.
  { left. by rewrite tasks_report. }
  destruct (data r) as [[|n rest]|] eqn:Hd; simpl; [by left | | by left].
  right. by exists n, rest.
Qed.

Lemma create_writes_last db uid d st :
  last (st :: create_writes db uid d st) = Some (handleCreateTask db uid d st).1.
Proof.
  unfold create_writes, handleCreateTask, title_precheck, create_settle.
  destruct (error (select_id_by_title db uid (p_title d))); [done|].
  destruct (data (select_id_by_title db uid (p_title d))) as [[|x l]|]; try done;
    destruct (error (insert_select db (insert_row uid d))); try done;
    by destruct (data (insert_select db (insert_row uid d))) as [[|n r]|].
Qed.

Lemma create_writes_cache db uid d st s :
  s ∈ create_writes db uid d st →
  tasks s = tasks st ∨
  ∃ newTask rest, title_precheck db uid (p_title d) st = None ∧
    (handleCreateTask db uid d st).2 = None ∧
    error (insert_select db (insert_row uid d)) = None ∧
    data (insert_select db (insert_row uid d)) = Some (newTask :: rest) ∧
    tasks s = newTask :: tasks st.
Proof.
  unfold create_writes, handleCreateTask, title_precheck, create_settle.
  destruct (error (select_id_by_title db uid (p_title d))).
  { intros ->%list_elem_of_singleton. left. apply tasks_report. }
  assert (∀ s1, s ∈ s1 :: match error (insert_select db (insert_row uid d)) with
               | Some e => [report st e "Error creating task. Please try again." s1]
               | None =>
                 match data (insert_select db (insert_row uid d)) with
                 | Some (newTask :: _) =>
                     [setTasks (create_commit newTask) s1;
                      setFormSubmitError "" (setTasks (create_commit newTask) s1)]
                 | _ => []
                 end
               end →
          tasks s1 = tasks st →
          tasks s = tasks st ∨
          ∃ newTask rest,
            (match error (insert_select db (insert_row uid d)) with
             | Some e => (report st e "Error creating task. Please try again." s1, Some e)
             | None =>
               match data (insert_select db (insert_row uid d)) with
               | Some (newTask :: _) =>
                   (setFormSubmitError "" (setTasks (create_commit newTask) s1), None)
               | _ => (s1, None)
               end
             end).2 = None ∧
            error (insert_select db (insert_row uid d)) = None ∧
            data (insert_select db (insert_row uid d)) = Some (newTask :: rest) ∧
            tasks s = newTask :: tasks st) as Hpass.
  { intros s1 Hs Hs1. apply elem_of_cons in Hs as [->|Hs]; [by left|].
    destruct (error (insert_select db (insert_row uid d))).
    { apply list_elem_of_singleton in Hs as ->. left. by rewrite tasks_report. }
    destruct (data (insert_select db (insert_row uid d))) as [[|n r]|];
      [by apply elem_of_nil in Hs | | by apply elem_of_nil in Hs].
    right. exists n, r. split_and!; try done.
    apply elem_of_cons in Hs as [->|Hs]; [simpl; unfold create_commit; by rewrite Hs1|].
    apply list_elem_of_singleton in Hs as ->. simpl. unfold create_commit. by rewrite Hs1. }
  destruct (data (select_id_by_title db uid (p_title d))) as [[|x l]|].
  - intros Hs. destruct (Hpass _ Hs eq_refl) as [?|(n & r & ?)]; [by left|].
    right. exists n, r. by split.
  - intros Hs. left. apply elem_of_cons in Hs as [->|Hs]; [done|].
    apply list_elem_of_singleton in Hs as ->. by rewrite tasks_report.
  - intros Hs. destruct (Hpass _ Hs eq_refl) as [?|(n & r & ?)]; [by left|].
    right. exists n, r. by split.
Qed.

(** C5. Create writes the cache on one path only. If the remote table
    holds a task of the same owner and title and the lookup answers
    over it, the handler rejects with the duplicate-title error, and
    the cache is as before after every state setter the handler calls.
    Whenever the handler rejects, for the lookup or for the insert, the
    cache is as before, after every setter and at the end. While the
    insert is awaited the cache is as before. No setter changes the
    cache unless the insert has answered with a row and no error, and
    then that row is put in front of the cache, whatever the cache
    holds when the insert answers. The row sent for insertion carries
    the status of the request, or todo when the request has none. *)
Theorem handleCreateTask_not_optimistic (db : Supabase) (uid : string) (d : PartialTask)
    (st : State) :
  let result := handleCreateTask db uid d st in
  let inserted := insert_select db (insert_row uid d) in
  let writes := create_writes db uid d st in
  (∀ rows r, select_id_by_title db uid (p_title d) = lookup_title rows uid (p_title d) →
     r ∈ rows → user_id r = uid → Some (title r) = p_title d →
     result.2 = Some duplicate_title ∧ tasks result.1 = tasks st ∧
     ∀ s, s ∈ writes → tasks s = tasks st) ∧
  (∀ e, result.2 = Some e →
     tasks result.1 = tasks st ∧ ∀ s, s ∈ writes → tasks s = tasks st) ∧
  (tasks result.1 = tasks st ∨
   ∃ newTask rest, result.2 = None ∧ error inserted = None ∧
     data inserted = Some (newTask :: rest) ∧ tasks result.1 = newTask :: tasks st) ∧
  (∀ newTask rest, title_precheck db uid (p_title d) st = None →
     error inserted = None → data inserted = Some (newTask :: rest) →
     result.2 = None ∧ tasks result.1 = newTask :: tasks st) ∧
  p_status (insert_row uid d) = Some (default Todo (p_status d)) ∧
  (p_status d = None → p_status (insert_row uid d) = Some Todo) ∧
  last (st :: writes) = Some result.1 ∧
  (∀ s, s ∈ writes →
     tasks s = tasks st ∨
     ∃ newTask rest, title_precheck db uid (p_title d) st = None ∧ result.2 = None ∧
       error inserted = None ∧ data inserted = Some (newTask :: rest) ∧
       tasks s = newTask :: tasks st) ∧
  (title_precheck db uid (p_title d) st = None →
     let pending := setShowForm false st in
     head writes = Some pending ∧ tasks pending = tasks st ∧
     result = create_settle st inserted pending) ∧
  (∀ cur, let settled := create_settle st inserted cur in
     (∀ e, settled.2 = Some e → tasks settled.1 = tasks cur) ∧
     (tasks settled.1 = tasks cur ∨
      ∃ newTask rest, settled.2 = None ∧ error inserted = None ∧
        data inserted = Some (newTask :: rest) ∧ tasks settled.1 = newTask :: tasks cur)).
Proof.
  cbv zeta.
  assert (∀ e, (handleCreateTask db uid d st).2 = Some e →
            ∀ s, s ∈ create_writes db uid d st → tasks s = tasks st) as Hrej.
  { intros e He s Hs.
    destruct (create_writes_cache db uid d st s Hs) as [?|(n & r & _ & Hnone & _)]; [done|].
    congruence. }
  split_and!.
  - intros rows r Hsel Hr Hu Ht.
    destruct (lookup_title_found rows uid (p_title d) r Hr Hu Ht) as (i & rest & Hdata).
    assert ((handleCreateTask db uid d st).2 = Some duplicate_title) as Hdup.
    { unfold handleCreateTask, title_precheck. by rewrite Hsel, Hdata. }
    split; [done|]. split; [by eapply handleCreateTask_failure|by eapply Hrej].
  - intros e He. split; [by eapply handleCreateTask_failure|by eapply Hrej].
  - unfold handleCreateTask.
    destruct (title_precheck db uid (p_title d) st) as [[st1 m]|] eqn:Hpre; simpl.
    { left. rewrite tasks_report. by eapply title_precheck_tasks. }
    apply (create_settle_cache st (insert_select db (insert_row uid d)) (setShowForm false st)).
  - intros n rest Hpre He Hd. unfold handleCreateTask, create_settle.
    by rewrite Hpre, He, Hd.
  - done.
  - intros H. simpl. by rewrite H.
  - apply create_writes_last.
  - apply create_writes_cache.
  - intros Hpre. split_and!; [|done|by unfold handleCreateTask; rewrite Hpre].
    unfold title_precheck in Hpre. unfold create_writes.
    destruct (error (select_id_by_title db uid (p_title d))); [done|].
    by destruct (data (select_id_by_title db uid (p_title d))) as [[|x l]|].
  - intros cur. split; [apply create_settle_failure|apply create_settle_cache].
Qed.

Lemma handleCreateTask_not_optimistic_witness :
  let result := handleCreateTask (db_over [task_a] task_b) "u1" buy_milk (state_of [task_a] ∅) in
  result.2 = Some duplicate_title ∧ tasks result.1 = [task_a] ∧
  (∀ s, s ∈ create_writes (db_over [task_a] task_b) "u1" buy_milk (state_of [task_a] ∅) →
     tasks s = [task_a]) ∧
  let down := handleCreateTask db_down "u1" buy_milk (state_of [task_a] ∅) in
  tasks (setShowForm false (state_of [task_a] ∅)) = [task_a] ∧
  down = create_settle (state_of [task_a] ∅) (mkResp None (Some "network error"))
           (setShowForm false (state_of [task_a] ∅)) ∧
  tasks down.1 = [task_a].
Proof.
  cbv zeta.
  destruct (proj1 (handleCreateTask_not_optimistic (db_over [task_a] task_b) "u1" buy_milk
                     (state_of [task_a] ∅)) [task_a] task_a) as (H1 & H2 & H3);
    [reflexivity | left | reflexivity | reflexivity |].
  split; [exact H1|]. split; [exact H2|]. split; [exact H3|].
  pose proof (handleCreateTask_not_optimistic db_down "u1" buy_milk (state_of [task_a] ∅))
    as (_ & Hrej & _ & _ & _ & _ & _ & _ & Hpend & _).
  destruct (Hpend eq_refl) as (_ & Hp & Heq).
  split; [exact Hp|]. split; [exact Heq|].
  exact (proj1 (Hrej "network error" eq_refl)).
Defined.

(** The scenario of the specification: "Buy milk" is created, then
    created again. *)
Example buy_milk_twice :
  let first := handleCreateTask (db_over [] task_a) "u1" buy_milk (state_of [] ∅) in
  let second := handleCreateTask (db_over [task_a] task_b) "u1" buy_milk first.1 in
  first.2 = None ∧ tasks first.1 = [task_a] ∧
  second.2 = Some duplicate_title ∧ tasks second.1 = [task_a].
Proof. cbv zeta. by vm_compute. Qed.

(** ** Toggle-complete and status change *)

Section RestrictedUpdates.
Implicit Types (l : list Task) (st : State) (db : Supabase) (x : string).




End RestrictedUpdates.



(** Clicking the status button of a cached task moves it one step
    round the cycle. *)
Example status_click_cycles :
  let st1 := status_click db_ok task_a (state_of [task_a] ∅) in
  let st2 := status_click db_ok (status_set InProgress task_a) st1 in
  let st3 := status_click db_ok (status_set Done task_a) st2 in
  tasks st1 = [status_set InProgress task_a] ∧
  tasks st2 = [status_set Done task_a] ∧
  tasks st3 = [task_a].
Proof. cbv zeta. by vm_compute. Qed.

(** ** The sort *)

Section ArraySortFacts.
Context {A : Type} (compare : A → A → Z).

Lemma sort_insert_perm a l : sort_insert compare a l ≡ₚ a :: l.
Proof.
  induction l as [|b l IH]; simpl; [done|].
  destruct (0 <? compare a b); [|done].
  rewrite IH. apply perm_swap.
Qed.

Lemma array_sort_perm l : array_sort compare l ≡ₚ l.
Proof.
  induction l as [|a l IH]; simpl; [done|].
  by rewrite sort_insert_perm, IH.
Qed.

(** The comparator is consistent: it orders any two elements one way
    or the other, and transitively. *)
Hypothesis compare_swap : ∀ a b, 0 < compare a b → compare b a ≤ 0.
Hypothesis compare_trans : ∀ a b c, compare a b ≤ 0 → compare b c ≤ 0 → compare a c ≤ 0.

Lemma sort_insert_sorted a l :
  StronglySorted (before compare) l → StronglySorted (before compare) (sort_insert compare a l).
Proof.
  induction l as [|b l IH]; simpl; intros Hs.
  - by repeat constructor.
  - apply StronglySorted_cons in Hs as [Hb Hs].
    destruct (0 <? compare a b) eqn:E.
    + apply Z.ltb_lt in E. apply StronglySorted_cons. split; [|by apply IH].
      rewrite sort_insert_perm. constructor; [by apply compare_swap | done].
    + apply Z.ltb_ge in E. apply StronglySorted_cons. split.
      * constructor; [done|]. eapply Forall_impl; [exact Hb|].
        intros c Hc. by eapply compare_trans.
      * by apply StronglySorted_cons.
Qed.

Lemma array_sort_sorted l : StronglySorted (before compare) (array_sort compare l).
Proof.
  induction l as [|a l IH]; simpl; [constructor | by apply sort_insert_sorted].
Qed.

(** In the sorted array, whatever stands before is ordered before. *)
Lemma array_sort_before (l l1 l2 l3 : list A) (a b : A) :
  array_sort compare l = (l1 ++ a :: l2 ++ b :: l3)%list → before compare a b.
Proof.
  intros Heq. pose proof (array_sort_sorted l) as Hs. rewrite Heq in Hs.
  apply StronglySorted_app_1_r, StronglySorted_cons in Hs as [Ha _].
  rewrite Forall_app, Forall_cons in Ha. tauto.
Qed.
End ArraySortFacts.

Section ProjectorFacts.
Variable getTime : string → Z.
Variable setHours0 : Z → Z.
Variable addDays addMonths : Z → Z → Z.

Lemma compare_tasks_swap sortBy a b :
  0 < compare_tasks getTime sortBy a b → compare_tasks getTime sortBy b a ≤ 0.
Proof.
  unfold compare_tasks.
  destruct (completed a), (completed b); simpl; try lia;
    destruct sortBy; try lia;
    destruct (no_due_date a), (no_due_date b); simpl; lia.
Qed.

Lemma compare_tasks_trans sortBy a b c :
  compare_tasks getTime sortBy a b ≤ 0 → compare_tasks getTime sortBy b c ≤ 0 →
  compare_tasks getTime sortBy a c ≤ 0.
Proof.
  unfold compare_tasks.
  destruct (completed a), (completed b), (completed c); simpl; try lia;
    destruct sortBy; try lia;
    destruct (no_due_date a), (no_due_date b), (no_due_date c); simpl; lia.
Qed.

Lemma in_due_range_bucket r today t :
  in_due_range getTime setHours0 addDays addMonths r today t = true ↔
  due_bucket getTime setHours0 addDays addMonths r today t.
Proof.
  unfold in_due_range, due_bucket, no_due_date, due_time.
  destruct (due_date t) as [s|]; simpl.
  - destruct (decide (s = "")) as [->|Hne].
    + rewrite bool_decide_eq_true_2 by done. split; [done|]. by intros (s & [= <-] & ? & _).
    + rewrite bool_decide_eq_false_2 by done.
      destruct r; simpl.
      * split; [intros _; by exists s | done].
      * rewrite andb_true_iff, Z.ltb_lt, negb_true_iff.
        split; [intros ?; by exists s | by intros (s0 & [= <-] & _ & ?)].
      * rewrite Z.eqb_eq.
        split; [intros ?; by exists s | by intros (s0 & [= <-] & _ & ?)].
      * rewrite andb_true_iff, !Z.leb_le.
        split; [intros ?; by exists s | by intros (s0 & [= <-] & _ & ?)].
      * rewrite andb_true_iff, !Z.leb_le.
        split; [intros ?; by exists s | by intros (s0 & [= <-] & _ & ?)].
  - split; [done|]. by intros (s & ? & _).
Qed.
End ProjectorFacts.

Section Projection.
Variable getTime : string → Z.
Variable setHours0 : Z → Z.
Variable addDays addMonths : Z → Z → Z.
Implicit Types (cache l : list Task) (f : FilterOptions) (t : Task).

Lemma elem_of_by_category f l t :
  t ∈ by_category f l ↔ t ∈ l ∧ (f_category f = "all" ∨ category t = f_category f).
Proof.
  unfold by_category. destruct (decide (f_category f ≠ "all")) as [H|H].
  - rewrite list_elem_of_filter. tauto.
  - apply dec_stable in H. tauto.
Qed.

Lemma elem_of_by_priority f l t :
  t ∈ by_priority f l ↔
  t ∈ l ∧ (f_priority f = "all" ∨ priority_name (priority t) = f_priority f).
Proof.
  unfold by_priority. destruct (decide (f_priority f ≠ "all")) as [H|H].
  - rewrite list_elem_of_filter. tauto.
  - apply dec_stable in H. tauto.
Qed.

Lemma elem_of_by_status f l t :
  t ∈ by_status f l ↔ t ∈ l ∧ (f_status f = "all" ∨ status_name (status t) = f_status f).
Proof.
  unfold by_status. destruct (decide (f_status f ≠ "all")) as [H|H].
  - rewrite list_elem_of_filter. tauto.
  - apply dec_stable in H. tauto.
Qed.

Lemma elem_of_by_due_date now f l t :
  t ∈ by_due_date getTime setHours0 addDays addMonths now f l ↔
  t ∈ l ∧ (dueDateRange f = AllDates ∨
           due_bucket getTime setHours0 addDays addMonths (dueDateRange f) (setHours0 now) t).
Proof.
  unfold by_due_date. destruct (decide (dueDateRange f ≠ AllDates)) as [H|H].
  - rewrite list_elem_of_filter, in_due_range_bucket. tauto.
  - apply dec_stable in H. tauto.
Qed.

Lemma elem_of_filteredAndSortedTasks now cache sortBy f t :
  t ∈ filteredAndSortedTasks getTime setHours0 addDays addMonths now cache sortBy f ↔
  t ∈ cache ∧ passes getTime setHours0 addDays addMonths now f t.
Proof.
  unfold filteredAndSortedTasks, passes. rewrite array_sort_perm.
  rewrite elem_of_by_due_date, elem_of_by_status, elem_of_by_priority, elem_of_by_category.
  tauto.
Qed.
End Projection.

(** C7. A task is in the projected list exactly when it is in the cache
    and passes every filter that is not "all": its category is the
    chosen one, its priority is the chosen one, its status is the chosen
    one, and it falls in the chosen due-date bucket. A cached task due
    today at local midnight is in the list under the today bucket and
    is not in the list under the overdue bucket, completed or not. *)
Theorem filteredAndSortedTasks_conjunctive (getTime : string → Z) (setHours0 : Z → Z)
    (addDays addMonths : Z → Z → Z) (now : Z) (cache : list Task) (sortBy : SortOption)
    (f : FilterOptions) (t : Task) :
  (t ∈ filteredAndSortedTasks getTime setHours0 addDays addMonths now cache sortBy f ↔
   t ∈ cache ∧
   (f_category f = "all" ∨ category t = f_category f) ∧
   (f_priority f = "all" ∨ priority_name (priority t) = f_priority f) ∧
   (f_status f = "all" ∨ status_name (status t) = f_status f) ∧
   (dueDateRange f = AllDates ∨
    due_bucket getTime setHours0 addDays addMonths (dueDateRange f) (setHours0 now) t)) ∧
  (∀ s, due_date t = Some s → s ≠ "" →
     getTime s = setHours0 now → setHours0 (setHours0 now) = setHours0 now →
     t ∈ cache →
     t ∈ filteredAndSortedTasks getTime setHours0 addDays addMonths now cache sortBy
           (mkFilters "all" "all" "all" Today) ∧
     t ∉ filteredAndSortedTasks getTime setHours0 addDays addMonths now cache sortBy
           (mkFilters "all" "all" "all" Overdue)).
Proof.
  split; [apply elem_of_filteredAndSortedTasks|].
  intros s Hs Hne Hdue Hidem Ht. rewrite !elem_of_filteredAndSortedTasks.
  unfold passes, due_bucket. simpl. split.
  - split; [done|]. repeat (split; [by left|]). right. exists s.
    rewrite Hdue, Hidem. done.
  - intros (_ & _ & _ & _ & [H|(s' & Hs' & _ & Hlt & _)]); [done|].
    rewrite Hs in Hs'. injection Hs' as <-. rewrite Hdue, Hidem in Hlt. lia.
Qed.

Lemma filteredAndSortedTasks_conjunctive_witness :
  let now := 20430 * day_ms + 54000000 in
  task_d ∈ visible_at now [task_a; task_d] Newest (mkFilters "all" "all" "all" Today) ∧
  task_d ∉ visible_at now [task_a; task_d] Newest (mkFilters "all" "all" "all" Overdue).
Proof.
  apply (proj2 (filteredAndSortedTasks_conjunctive utc_getTime utc_setHours0 utc_addDays
                  utc_addMonths (20430 * day_ms + 54000000) [task_a; task_d] Newest
                  no_filter task_d) "2025-12-08");
    [reflexivity | discriminate | reflexivity | reflexivity |].
  right. left.
Defined.

(** The filter-conjunction property of the specification: category
    Work and priority high together keep the tasks that are both. *)
Example work_and_high :
  let w_low := mkTask "1" "u1" "t1" "" "Work" Low Todo None false "" "" in
  let w_high := mkTask "2" "u1" "t2" "" "Work" High Todo None false "" "" in
  let p_low := mkTask "3" "u1" "t3" "" "Personal" Low Todo None false "" "" in
  let p_high := mkTask "4" "u1" "t4" "" "Personal" High Todo None false "" "" in
  visible_at 0 [w_low; w_high; p_low; p_high] Newest (mkFilters "Work" "high" "all" AllDates)
  = [w_high].
Proof. cbv zeta. by vm_compute. Qed.

(** C8. When a stands before b in the projected list: a is not a
    completed task before an incomplete one; and if both are completed
    or both are not, then under newest a was created no earlier than b,
    under oldest no later than b; under due_date, if the field due_date
    of a is null or empty then so is that of b, and when both fields
    hold a date that of a is no later than that of b; under priority a
    ranks no lower than b in the order high, medium, low: a medium task
    is not before a high one and a low task is before low tasks only. *)
Theorem filteredAndSortedTasks_order (getTime : string → Z) (setHours0 : Z → Z)
    (addDays addMonths : Z → Z → Z) (now : Z) (cache : list Task) (sortBy : SortOption)
    (f : FilterOptions) (l1 l2 l3 : list Task) (a b : Task) :
  filteredAndSortedTasks getTime setHours0 addDays addMonths now cache sortBy f
    = (l1 ++ a :: l2 ++ b :: l3)%list →
  ¬ (completed a = true ∧ completed b = false) ∧
  (completed a = completed b →
   match sortBy with
   | Newest => getTime (created_at b) ≤ getTime (created_at a)
   | Oldest => getTime (created_at a) ≤ getTime (created_at b)
   | DueDate =>
       (due_date a = None ∨ due_date a = Some "" →
        due_date b = None ∨ due_date b = Some "") ∧
       (∀ da db, due_date a = Some da → da ≠ "" → due_date b = Some db → db ≠ "" →
          getTime da ≤ getTime db)
   | ByPriority =>
       priorityOrder (priority a) ≤ priorityOrder (priority b) ∧
       priorityOrder High < priorityOrder Medium < priorityOrder Low ∧
       (priority a = Medium → priority b ≠ High) ∧
       (priority a = Low → priority b = Low)
   end).
Proof.
  intros Heq. unfold filteredAndSortedTasks in Heq.
  apply array_sort_before in Heq;
    [|apply compare_tasks_swap|apply compare_tasks_trans].
  unfold before, compare_tasks in Heq. split.
  - intros [Ha Hb]. rewrite Ha, Hb in Heq. simpl in Heq. lia.
  - intros Hc. rewrite Hc in Heq.
    assert (completed b && negb (completed b) = false) as E1 by (by destruct (completed b)).
    assert (negb (completed b) && completed b = false) as E2 by (by destruct (completed b)).
    rewrite E1, E2 in Heq. destruct sortBy; [lia | lia | |].
    + unfold no_due_date, due_time in Heq. split.
      * intros Ha. destruct (due_date b) as [sb|]; [|by left].
        destruct (decide (sb = "")) as [->|Hb]; [by right|]. exfalso.
        rewrite (bool_decide_eq_false_2 (sb = "") Hb) in Heq.
        destruct Ha as [Ha|Ha]; rewrite Ha in Heq; simpl in Heq; lia.
      * intros da db Ha Hda Hb Hdb. rewrite Ha, Hb in Heq.
        rewrite (bool_decide_eq_false_2 (da = "") Hda) in Heq.
        rewrite (bool_decide_eq_false_2 (db = "") Hdb) in Heq. simpl in Heq. lia.
    + split; [lia|]. split; [done|].
      destruct (priority a), (priority b); simpl in Heq; split; intros; try done; lia.
Qed.

Lemma filteredAndSortedTasks_order_witness :
  visible_at 0 [task_a; task_b; task_d] DueDate no_filter = [task_d; task_b; task_a] ∧
  utc_getTime "2025-12-08" ≤ utc_getTime "2025-12-09" ∧
  ¬ (due_date task_b = None ∨ due_date task_b = Some "").
Proof.
  assert (visible_at 0 [task_a; task_b; task_d] DueDate no_filter
          = ([] ++ task_d :: [] ++ task_b :: [task_a])%list) as H by (by vm_compute).
  split; [exact H|].
  destruct (proj2 (filteredAndSortedTasks_order utc_getTime utc_setHours0 utc_addDays
                     utc_addMonths 0 [task_a; task_b; task_d] DueDate no_filter
                     [] [] [task_a] task_d task_b H) eq_refl) as [_ Hdates].
  split; [by apply (Hdates "2025-12-08" "2025-12-09")|].
  by intros [?|?].
Defined.

(** * Further properties *)

(** ** The cache under the change feed *)

Section FeedInvariants.
Implicit Types (current : list Task) (uid : string) (p : Payload).

Lemma subscribeToTasks_owned uid p current :
  owned_by uid current → owned_by uid (subscribeToTasks uid p current).
Proof.
  intros Hown. unfold subscribeToTasks.
  destruct (new_is_foreign uid p) eqn:Hn; [done|]. destruct (old_is_foreign uid p); [done|].
  destruct p as [n o|n o|n o]; simpl in Hn; intros t Ht.
  - apply negb_false_iff, bool_decide_eq_true in Hn. unfold feed_insert in Ht.
    destruct (some_id (id n) current); [by apply Hown|].
    apply elem_of_cons in Ht as [->|Ht]; [done | by apply Hown].
  - apply negb_false_iff, bool_decide_eq_true in Hn.
    unfold feed_update, replace_id in Ht. apply list_elem_of_fmap in Ht as (u & -> & Hu).
    destruct (has_id (id n) u); [done | by apply Hown].
  - unfold feed_delete in Ht. apply list_elem_of_filter in Ht as [_ Ht]. by apply Hown.
Qed.
End FeedInvariants.

(** X1. Starting from a cache with distinct ids, the cache has distinct
    ids after any sequence of change-feed events, whoever they belong
    to and in whatever order they arrive. *)
Theorem feed_keeps_ids_distinct (uid : string) (events : list Payload) (cache : list Task) :
  NoDup (ids cache) →
  NoDup (ids (foldl (λ current p, subscribeToTasks uid p current) cache events)).
Proof.
  revert cache. induction events as [|p events IH]; intros cache Hnd; simpl; [done|].
  apply IH. by apply subscribeToTasks_NoDup.
Qed.

Lemma feed_keeps_ids_distinct_witness :
  NoDup (ids (foldl (λ current p, subscribeToTasks "u1" p current) [task_a]
                [INSERT task_a None; INSERT task_b None; UPDATE task_b None])).
Proof.
  apply feed_keeps_ids_distinct. apply (bool_decide_unpack _). vm_compute. exact I.
Defined.

(** X2. If every cached task belongs to the current user, so does every
    cached task after any sequence of change-feed events: the callback
    never lets in a row of another owner. Every card then stays a card
    of the owner, with its edit, complete and delete buttons. *)
Theorem feed_keeps_cache_owned (user : User) (events : list Payload) (cache : list Task) :
  owned_by (u_id user) cache →
  let cache' := foldl (λ current p, subscribeToTasks (u_id user) p current) cache events in
  owned_by (u_id user) cache' ∧ ∀ t, t ∈ cache' → isOwner user t = true.
Proof.
  cbv zeta. intros Hown.
  assert (owned_by (u_id user)
            (foldl (λ current p, subscribeToTasks (u_id user) p current) cache events)) as H.
  { revert cache Hown. induction events as [|p events IH]; intros cache Hown; simpl; [done|].
    apply IH. by apply subscribeToTasks_owned. }
  split; [done|]. intros t Ht. apply bool_decide_eq_true. symmetry. by apply H.
Qed.

Lemma feed_keeps_cache_owned_witness :
  owned_by "u1" (foldl (λ current p, subscribeToTasks "u1" p current) []
                   [INSERT task_a None;
                    INSERT (mkTask "x" "u2" "Theirs" "" "Work" Low Todo None false "" "") None]).
Proof.
  apply (feed_keeps_cache_owned user1). intros t Ht. inversion Ht.
Defined.

(** ** Invariants of the handlers *)

Section HandlerInvariants.
Implicit Types (l : list Task) (st : State) (db : Supabase) (x : string).

Lemma ids_replace_same x r l : id r = x → ids (replace_id x r l) = ids l.
Proof. intros <-. apply ids_replace_id. Qed.

Lemma tasks_handleToggleComplete_ids db x c st :
  ids (tasks (handleToggleComplete db x c st)) = ids (tasks st).
Proof.
  unfold handleToggleComplete. destruct (find_id x (tasks st)); [|done].
  destruct (update_eq_id db (only_completed c) x); simpl; by rewrite !ids_alter_id.
Qed.

Lemma tasks_handleStatusChange_ids db x v st :
  ids (tasks (handleStatusChange db x v st)) = ids (tasks st).
Proof.
  unfold handleStatusChange. destruct (find_id x (tasks st)); [|done].
  destruct (update_eq_id db (only_status v) x); simpl; by rewrite !ids_alter_id.
Qed.

Lemma tasks_handleBulkMarkAsCompleted_ids db st :
  ids (tasks (handleBulkMarkAsCompleted db st)) = ids (tasks st).
Proof.
  unfold handleBulkMarkAsCompleted.
  destruct (decide (size (selectedTasks st) = 0%nat)); [done|].
  destruct (update_in_id db completed_done (elements (selectedTasks st))); simpl;
    by rewrite ?ids_bulk_complete_rollback, ids_bulk_complete.
Qed.

Lemma tasks_handleUpdateTask_ids db uid d st :
  p_id d = None → ids (tasks (handleUpdateTask db uid d st).1) = ids (tasks st).
Proof.
  intros Hid. unfold handleUpdateTask. destruct (editingTask st) as [e|]; [|done].
  destruct (if title_changes d e then title_precheck db uid (p_title d) st else None)
    as [[st1 m]|] eqn:Hpre; simpl.
  - rewrite tasks_report. destruct (title_changes d e); [|done].
    by rewrite (title_precheck_tasks _ _ _ _ _ _ Hpre).
  - assert (id (spread e d) = id e) as Hsp by (simpl; by rewrite Hid).
    destruct (update_eq_id db d (id e)); simpl; rewrite ?tasks_report; simpl;
      unfold update_rollback, update_optimistic;
      by rewrite ?ids_replace_id, (ids_replace_same _ _ _ Hsp).
Qed.

Lemma NoDup_ids_perm l l' : l ≡ₚ l' → NoDup (ids l') → NoDup (ids l).
Proof. intros Hp. unfold ids. by rewrite Hp. Qed.

Lemma tasks_handleDeleteTask_NoDup db confirmed x st :
  NoDup (ids (tasks st)) → NoDup (ids (tasks (handleDeleteTask db confirmed x st))).
Proof.
  intros Hnd. destruct (delete_eq_id db x) as [err|] eqn:Herr.
  - eapply NoDup_ids_perm; [by eapply handleDeleteTask_rollback_perm | done].
  - unfold handleDeleteTask. destruct confirmed; simpl; [|done]. rewrite Herr.
    destruct (decide (x ∈ selectedTasks st)); simpl; by apply ids_filter_NoDup.
Qed.

Lemma tasks_handleBulkDelete_NoDup db confirmed st :
  NoDup (ids (tasks st)) → NoDup (ids (tasks (handleBulkDelete db confirmed st))).
Proof.
  intros Hnd. destruct (delete_in_id db (elements (selectedTasks st))) as [err|] eqn:Herr.
  - eapply NoDup_ids_perm; [by eapply handleBulkDelete_rollback_perm | done].
  - unfold handleBulkDelete. destruct (decide (size (selectedTasks st) = 0%nat)); [done|].
    destruct confirmed; simpl; [|done]. rewrite Herr. simpl. by apply ids_filter_NoDup.
Qed.

Lemma selectedTasks_report st0 m fb st : selectedTasks (report st0 m fb st) = selectedTasks st.
Proof. unfold report. by destruct (decide (formSubmitError st0 = "")). Qed.

Lemma title_precheck_selectedTasks db uid t st st1 m :
  title_precheck db uid t st = Some (st1, m) → selectedTasks st1 = selectedTasks st.
Proof.
  unfold title_precheck. destruct (error _); [by intros [= <- _]|].
  destruct (data _) as [[|i r]|]; try done. by intros [= <- _].
Qed.


Lemma handleUpdateTask_selectedTasks db uid d st :
  selectedTasks (handleUpdateTask db uid d st).1 = selectedTasks st.
Proof.
  unfold handleUpdateTask. destruct (editingTask st) as [e|]; [|done].
  destruct (if title_changes d e then title_precheck db uid (p_title d) st else None)
    as [[st1 m]|] eqn:Hpre; simpl.
  - rewrite selectedTasks_report. destruct (title_changes d e); [|done].
    by rewrite (title_precheck_selectedTasks _ _ _ _ _ _ Hpre).
  - destruct (update_eq_id db d (id e)); simpl; by rewrite ?selectedTasks_report.
Qed.
End HandlerInvariants.

(** X3. Every handler that changes or removes tasks leaves the ids of
    the cache distinct if they were, whatever the backend answers:
    toggle-complete, status change, bulk complete, single and bulk
    delete, and update when the edit carries no id. (Create is the one
    handler that adds a record.) *)
Theorem handlers_keep_ids_distinct (db : Supabase) (uid : string) (st : State) :
  NoDup (ids (tasks st)) →
  (∀ x c, NoDup (ids (tasks (handleToggleComplete db x c st)))) ∧
  (∀ x v, NoDup (ids (tasks (handleStatusChange db x v st)))) ∧
  NoDup (ids (tasks (handleBulkMarkAsCompleted db st))) ∧
  (∀ confirmed x, NoDup (ids (tasks (handleDeleteTask db confirmed x st)))) ∧
  (∀ confirmed, NoDup (ids (tasks (handleBulkDelete db confirmed st)))) ∧
  (∀ d, p_id d = None → NoDup (ids (tasks (handleUpdateTask db uid d st).1))).
Proof.
  intros Hnd. repeat split; intros.
  - by rewrite tasks_handleToggleComplete_ids.
  - by rewrite tasks_handleStatusChange_ids.
  - by rewrite tasks_handleBulkMarkAsCompleted_ids.
  - by apply tasks_handleDeleteTask_NoDup.
  - by apply tasks_handleBulkDelete_NoDup.
  - by rewrite tasks_handleUpdateTask_ids.
Qed.

Lemma handlers_keep_ids_distinct_witness :
  NoDup (ids (tasks (handleDeleteTask db_down true "a" (state_of [task_a; task_b] ∅)))) ∧
  NoDup (ids (tasks (handleBulkMarkAsCompleted db_ok (state_of [task_a; task_b] {["b"]})))).
Proof.
  assert (NoDup (ids [task_a; task_b])) as Hnd
    by (apply (bool_decide_unpack _); vm_compute; exact I).
  split.
  - apply (handlers_keep_ids_distinct db_down "u1" (state_of [task_a; task_b] ∅) Hnd).
  - apply (handlers_keep_ids_distinct db_ok "u1" (state_of [task_a; task_b] {["b"]}) Hnd).
Defined.



(** ** What the handlers leave behind *)

Section Outcomes.
Implicit Types (l : list Task) (st : State) (db : Supabase) (x : string).

Lemma setTasks_same (f : list Task → list Task) st : f (tasks st) = tasks st → setTasks f st = st.
Proof. intros H. unfold setTasks. rewrite H. by destruct st. Qed.

Lemma setTasks_setTasks (f g : list Task → list Task) st :
  setTasks g (setTasks f st) = setTasks (g ∘ f) st.
Proof. done. Qed.

Lemma bulk_complete_lookup (s : gset string) l (i : nat) :
  bulk_complete s l !! i =
    (λ t, if decide (id t ∈ s)
          then mkTask (id t) (user_id t) (title t) (description t) (category t) (priority t)
                      Done (due_date t) true (created_at t) (updated_at t)
          else t) <$> l !! i.
Proof. unfold bulk_complete. by rewrite list_lookup_fmap. Qed.
End Outcomes.

(** X5. When the ids of the cache are distinct and the backend refuses
    the write, toggle-complete, status change and bulk complete leave
    the whole state, cache and selection, exactly as it was. *)
Theorem in_place_rollback (db : Supabase) (st : State) :
  NoDup (ids (tasks st)) →
  (∀ x c err, update_eq_id db (only_completed c) x = Some err →
     handleToggleComplete db x c st = st) ∧
  (∀ x v err, update_eq_id db (only_status v) x = Some err →
     handleStatusChange db x v st = st) ∧
  (∀ err, update_in_id db completed_done (elements (selectedTasks st)) = Some err →
     handleBulkMarkAsCompleted db st = st).
Proof.
  intros Hnd. split; [|split].
  - intros x c err Herr.
    pose proof (handleToggleComplete_rollback db x c st err Hnd Herr) as Hr.
    unfold handleToggleComplete in *. destruct (find_id x (tasks st)); [|done].
    rewrite Herr in *. rewrite setTasks_setTasks in *. by apply setTasks_same.
  - intros x v err Herr.
    pose proof (handleStatusChange_rollback db x v st err Hnd Herr) as Hr.
    unfold handleStatusChange in *. destruct (find_id x (tasks st)); [|done].
    rewrite Herr in *. rewrite setTasks_setTasks in *. by apply setTasks_same.
  - intros err Herr.
    pose proof (handleBulkMarkAsCompleted_rollback db st err Hnd Herr) as Hr.
    unfold handleBulkMarkAsCompleted in *.
    destruct (decide (size (selectedTasks st) = 0%nat)); [done|].
    rewrite Herr in *. rewrite setTasks_setTasks in *. by apply setTasks_same.
Qed.

Lemma in_place_rollback_witness :
  handleToggleComplete db_down "a" true (state_of [task_a; task_b] {["a"]})
    = state_of [task_a; task_b] {["a"]} ∧
  handleBulkMarkAsCompleted db_down (state_of [task_a; task_b] {["a"]})
    = state_of [task_a; task_b] {["a"]}.
Proof.
  assert (NoDup (ids (tasks (state_of [task_a; task_b] {["a"]})))) as Hnd
    by (apply (bool_decide_unpack _); vm_compute; exact I).
  split.
  - apply (proj1 (in_place_rollback db_down _ Hnd) "a" true "network error" eq_refl).
  - apply (proj2 (proj2 (in_place_rollback db_down _ Hnd)) "network error" eq_refl).
Defined.

(** X6. When the backend refuses a delete, the cache holds the same
    records as before, possibly in another order, and the selection is
    as it was: for a single delete when the ids of the cache are
    distinct, for a bulk delete always. *)
Theorem delete_rollback_keeps_records (db : Supabase) (confirmed : bool) (st : State) :
  (∀ x err, NoDup (ids (tasks st)) → delete_eq_id db x = Some err →
     tasks (handleDeleteTask db confirmed x st) ≡ₚ tasks st ∧
     selectedTasks (handleDeleteTask db confirmed x st) = selectedTasks st) ∧
  (∀ err, delete_in_id db (elements (selectedTasks st)) = Some err →
     tasks (handleBulkDelete db confirmed st) ≡ₚ tasks st ∧
     selectedTasks (handleBulkDelete db confirmed st) = selectedTasks st).
Proof.
  split.
  - intros x err Hnd Herr. split; [by eapply handleDeleteTask_rollback_perm|].
    unfold handleDeleteTask. destruct confirmed; simpl; [|done]. rewrite Herr.
    by destruct (find_id x (tasks st)).
  - intros err Herr. split; [by eapply handleBulkDelete_rollback_perm|].
    unfold handleBulkDelete. destruct (decide (size (selectedTasks st) = 0%nat)); [done|].
    destruct confirmed; simpl; [|done]. by rewrite Herr.
Qed.

Lemma delete_rollback_keeps_records_witness :
  let st := state_of [task_a; task_b] {["a"]} in
  tasks (handleDeleteTask db_down true "a" st) ≡ₚ tasks st ∧
  selectedTasks (handleDeleteTask db_down true "a" st) = selectedTasks st.
Proof.
  cbv zeta.
  apply (proj1 (delete_rollback_keeps_records db_down true
                  (state_of [task_a; task_b] {["a"]})) "a" "network error");
    [|reflexivity].
  apply (bool_decide_unpack _). vm_compute. exact I.
Defined.

(** X7. A delete the user confirms and the backend accepts removes the
    id from the cache and from the selection and leaves every other
    record, in order, and every other selected id. An accepted bulk
    delete of a selection that is not empty leaves exactly the records
    that were not selected, in order, and an empty selection. A delete
    the user declines changes nothing. *)
Theorem delete_outcome (db : Supabase) (st : State) :
  (∀ x, delete_eq_id db x = None →
     let st' := handleDeleteTask db true x st in
     (x ∉ ids (tasks st')) ∧ (x ∉ selectedTasks st') ∧
     (∀ t, t ∈ tasks st' ↔ t ∈ tasks st ∧ id t ≠ x) ∧
     tasks st' `sublist_of` tasks st ∧
     (∀ y, y ∈ selectedTasks st' ↔ y ∈ selectedTasks st ∧ y ≠ x)) ∧
  (delete_in_id db (elements (selectedTasks st)) = None → selectedTasks st ≠ ∅ →
     let st' := handleBulkDelete db true st in
     selectedTasks st' = ∅ ∧
     (∀ t, t ∈ tasks st' ↔ t ∈ tasks st ∧ id t ∉ selectedTasks st) ∧
     tasks st' `sublist_of` tasks st) ∧
  (∀ x, handleDeleteTask db false x st = st) ∧
  handleBulkDelete db false st = st.
Proof.
  split; [|split; [|split]].
  - intros x Hok. cbv zeta. unfold handleDeleteTask. simpl. rewrite Hok.
    assert (∀ s, tasks (if decide (x ∈ selectedTasks st)
                        then setSelectedTasks s (setTasks (remove_id x) st)
                        else setTasks (remove_id x) st) = remove_id x (tasks st)) as ->
      by (intros s; by destruct (decide (x ∈ selectedTasks st))).
    split; [apply ids_remove_id|]. split; [|split; [|split]].
    + destruct (decide (x ∈ selectedTasks st)); simpl; set_solver.
    + intros t. unfold remove_id. rewrite list_elem_of_filter. tauto.
    + apply sublist_filter.
    + intros y. destruct (decide (x ∈ selectedTasks st)); simpl; set_solver.
  - intros Hok Hne. cbv zeta. unfold handleBulkDelete.
    rewrite decide_False by (intros H%size_empty_inv; apply Hne; by apply leibniz_equiv).
    simpl. rewrite Hok. simpl. split; [done|]. split.
    + intros t. unfold bulk_remove. rewrite list_elem_of_filter. tauto.
    + apply sublist_filter.
  - done.
  - unfold handleBulkDelete. by destruct (decide (size (selectedTasks st) = 0%nat)).
Qed.

Lemma delete_outcome_witness :
  let st' := handleDeleteTask db_ok true "a" (state_of [task_a; task_b] {["a"; "b"]}) in
  ("a" ∉ ids (tasks st')) ∧ ("a" ∉ selectedTasks st').
Proof.
  destruct (proj1 (delete_outcome db_ok (state_of [task_a; task_b] {["a"; "b"]}))
              "a" eq_refl) as (H1 & H2 & _).
  by split.
Defined.

(** X8. A bulk complete that the backend accepts, over a selection that
    is not empty, leaves each cached record in its place: a selected
    record with [completed] set and [status] done and nothing else
    changed, any other record as it was; and it empties the selection.
    With an empty selection the handler changes nothing. *)
Theorem bulk_complete_outcome (db : Supabase) (st : State) :
  (update_in_id db completed_done (elements (selectedTasks st)) = None →
   selectedTasks st ≠ ∅ →
   let st' := handleBulkMarkAsCompleted db st in
   selectedTasks st' = ∅ ∧
   ∀ i : nat, tasks st' !! i =
     (λ t, if decide (id t ∈ selectedTasks st)
           then mkTask (id t) (user_id t) (title t) (description t) (category t)
                       (priority t) Done (due_date t) true (created_at t) (updated_at t)
           else t) <$> tasks st !! i) ∧
  (selectedTasks st = ∅ → handleBulkMarkAsCompleted db st = st).
Proof.
  split.
  - intros Hok Hne. cbv zeta. unfold handleBulkMarkAsCompleted.
    rewrite decide_False by (intros H%size_empty_inv; apply Hne; by apply leibniz_equiv).
    rewrite Hok. simpl. split; [done|]. intros i. apply bulk_complete_lookup.
  - intros Hempty. unfold handleBulkMarkAsCompleted. rewrite Hempty.
    by rewrite decide_True by apply size_empty.
Qed.

Lemma bulk_complete_outcome_witness :
  let st' := handleBulkMarkAsCompleted db_ok (state_of [task_a; task_b] {["b"]}) in
  selectedTasks st' = ∅ ∧ (completed <$> tasks st' !! 1%nat) = Some true ∧
  (status <$> tasks st' !! 1%nat) = Some Done ∧ tasks st' !! 0%nat = Some task_a.
Proof.
  destruct (proj1 (bulk_complete_outcome db_ok (state_of [task_a; task_b] {["b"]}))) as [H1 H2];
    [reflexivity | set_solver |].
  cbv zeta. split; [exact H1|]. rewrite !H2. by vm_compute.
Defined.

(** ** Update through the form *)

Section UpdateFacts.
Implicit Types (l : list Task) (st : State) (db : Supabase) (x : string).

Lemma replace_id_lookup x r l (i : nat) :
  replace_id x r l !! i = (λ t, if decide (id t = x) then r else t) <$> l !! i.
Proof.
  unfold replace_id. rewrite list_lookup_fmap. destruct (l !! i) as [t|]; simpl; [|done].
  unfold has_id. destruct (decide (id t = x)).
  - by rewrite bool_decide_eq_true_2.
  - by rewrite bool_decide_eq_false_2.
Qed.

Lemma handleUpdateTask_passes db uid d st e :
  editingTask st = Some e → (handleUpdateTask db uid d st).2 = None →
  (if title_changes d e then title_precheck db uid (p_title d) st else None) = None.
Proof.
  intros He. unfold handleUpdateTask. rewrite He.
  by destruct (if title_changes d e then title_precheck db uid (p_title d) st else None)
    as [[st1 m]|].
Qed.

Lemma title_precheck_frame db uid t st st1 m :
  title_precheck db uid t st = Some (st1, m) →
  editingTask st1 = editingTask st ∧ showForm st1 = showForm st.
Proof.
  unfold title_precheck. destruct (error _); [by intros [= <- _]|].
  destruct (data _) as [[|i r]|]; try done. by intros [= <- _].
Qed.

Lemma report_frame st0 m fb st :
  editingTask (report st0 m fb st) = editingTask st ∧
  showForm (report st0 m fb st) = showForm st.
Proof. unfold report. by destruct (decide (formSubmitError st0 = "")). Qed.
End UpdateFacts.

(** X9. An edit submitted from the form that passes the title lookup
    and that the backend accepts replaces, in place, the cached record
    of the edited task by the snapshot taken when the form was opened
    with title, description, category, priority, status and due date
    from the form; id, owner, [completed] and both timestamps are those
    of the snapshot. Every other record, and the selection, stay as
    they are; the form is closed and the submit error cleared. *)
Theorem form_update_outcome (db : Supabase) (uid : string) (f : TaskForm) (st : State)
    (e : Task) :
  editingTask st = Some e →
  (handleUpdateTask db uid (TaskForm_data f) st).2 = None →
  update_eq_id db (TaskForm_data f) (id e) = None →
  let st' := (handleUpdateTask db uid (TaskForm_data f) st).1 in
  (∀ i : nat, tasks st' !! i =
     (λ t, if decide (id t = id e)
           then mkTask (id e) (user_id e) (tf_title f) (tf_description f) (tf_category f)
                       (tf_priority f) (tf_status f)
                       (if bool_decide (tf_dueDate f = "") then None else Some (tf_dueDate f))
                       (completed e) (created_at e) (updated_at e)
           else t) <$> tasks st !! i) ∧
  selectedTasks st' = selectedTasks st ∧
  editingTask st' = None ∧ showForm st' = false ∧ formSubmitError st' = "".
Proof.
  intros He Hpass Hok. cbv zeta.
  pose proof (handleUpdateTask_passes _ _ _ _ _ He Hpass) as Hpre.
  unfold handleUpdateTask. rewrite He, Hpre, Hok. simpl.
  split; [|done]. intros i. unfold update_optimistic. by rewrite replace_id_lookup.
Qed.

Lemma form_update_outcome_witness :
  let f := mkTaskForm "Buy oat milk" "" "Personal" High Done "2025-12-09" ∅ "" in
  let st' := (handleUpdateTask db_ok "u1" (TaskForm_data f) (onEdit task_a (state_of [task_a; task_b] ∅))).1 in
  tasks st' !! 0%nat =
    Some (mkTask "a" "u1" "Buy oat milk" "" "Personal" High Done (Some "2025-12-09") false
                 "2025-12-01T10:00:00Z" "2025-12-01T10:00:00Z") ∧
  tasks st' !! 1%nat = Some task_b.
Proof.
  cbv zeta.
  destruct (form_update_outcome db_ok "u1"
              (mkTaskForm "Buy oat milk" "" "Personal" High Done "2025-12-09" ∅ "")
              (onEdit task_a (state_of [task_a; task_b] ∅)) task_a eq_refl eq_refl eq_refl)
    as [H _].
  rewrite !H. by vm_compute.
Defined.

(** X10. When an edit that carries no id passes the title lookup and
    the backend then refuses it, and the edited task is the cached
    record of its id, the cache is exactly as before; the handler does
    not reject, the form is closed, and the backend's message is kept
    as the submit error unless one was already there. *)
Theorem update_refused (db : Supabase) (uid : string) (d : PartialTask) (st : State)
    (e : Task) (err : string) :
  editingTask st = Some e →
  (∀ t, t ∈ tasks st → id t = id e → t = e) →
  p_id d = None →
  (handleUpdateTask db uid d st).2 = None →
  update_eq_id db d (id e) = Some err →
  let st' := (handleUpdateTask db uid d st).1 in
  tasks st' = tasks st ∧ selectedTasks st' = selectedTasks st ∧
  editingTask st' = None ∧ showForm st' = false ∧
  formSubmitError st' =
    if decide (formSubmitError st = "")
    then or_else err "Error updating task. Please try again."
    else formSubmitError st.
Proof.
  intros He Hcached Hid Hpass Herr. cbv zeta.
  split; [apply (handleUpdateTask_rollback db uid d st e); try done; right; by rewrite Herr|].
  split; [apply handleUpdateTask_selectedTasks|].
  pose proof (handleUpdateTask_passes _ _ _ _ _ He Hpass) as Hpre.
  unfold handleUpdateTask. rewrite He, Hpre, Herr. simpl. unfold report.
  by destruct (decide (formSubmitError st = "")).
Qed.

Lemma update_refused_witness :
  let st := onEdit task_a (state_of [task_a; task_b] ∅) in
  let st' := (handleUpdateTask db_down "u1" buy_milk st).1 in
  tasks st' = tasks st ∧ showForm st' = false ∧ formSubmitError st' = "network error".
Proof.
  cbv zeta.
  destruct (update_refused db_down "u1" buy_milk (onEdit task_a (state_of [task_a; task_b] ∅))
              task_a "network error" eq_refl) as (H1 & _ & _ & H2 & H3);
    [|reflexivity|reflexivity|reflexivity|].
  - intros t Ht Hid. simpl in Ht. apply elem_of_cons in Ht as [->|Ht]; [done|].
    apply list_elem_of_singleton in Ht as ->. discriminate.
  - split; [exact H1|]. split; [exact H2|]. exact H3.
Defined.

(** X11. Update rejects only when the edit changes the title and the
    title lookup fails or finds a task of that title; the cache, the
    selection, the task being edited and the open form are then as
    before. An edit that keeps the title never rejects, whatever the
    backend answers, and with no task being edited the handler does
    nothing. *)
Theorem update_rejection (db : Supabase) (uid : string) (d : PartialTask) (st : State) :
  (∀ m, (handleUpdateTask db uid d st).2 = Some m →
     ∃ e, editingTask st = Some e ∧ title_changes d e = true ∧
          title_precheck db uid (p_title d) st ≠ None ∧
          let st' := (handleUpdateTask db uid d st).1 in
          tasks st' = tasks st ∧ selectedTasks st' = selectedTasks st ∧
          editingTask st' = editingTask st ∧ showForm st' = showForm st) ∧
  (∀ e, editingTask st = Some e → p_title d = Some (title e) →
     (handleUpdateTask db uid d st).2 = None) ∧
  (editingTask st = None → handleUpdateTask db uid d st = (st, None)).
Proof.
  split; [|split].
  - intros m. unfold handleUpdateTask. destruct (editingTask st) as [e|] eqn:He; [|done].
    destruct (title_changes d e) eqn:Hch.
    + destruct (title_precheck db uid (p_title d) st) as [[st1 m1]|] eqn:Hpre; simpl.
      * intros _. exists e. split; [done|]. split; [done|]. split; [done|].
        rewrite tasks_report, selectedTasks_report.
        destruct (report_frame st m1
                    "Error checking for duplicate title. Please try again." st1) as [-> ->].
        destruct (title_precheck_frame _ _ _ _ _ _ Hpre) as [-> ->].
        rewrite (title_precheck_tasks _ _ _ _ _ _ Hpre).
        by rewrite (title_precheck_selectedTasks _ _ _ _ _ _ Hpre).
      * by destruct (update_eq_id db d (id e)).
    + by destruct (update_eq_id db d (id e)).
  - intros e He Ht. unfold handleUpdateTask. rewrite He.
    assert (title_changes d e = false) as ->.
    { unfold title_changes. rewrite Ht. rewrite (bool_decide_eq_true_2 (title e = title e)) by done.
      by rewrite andb_false_r. }
    by destruct (update_eq_id db d (id e)).
  - intros He. unfold handleUpdateTask. by rewrite He.
Qed.

Lemma update_rejection_witness :
  (handleUpdateTask (db_over [task_a; task_b] task_a) "u1" buy_milk
     (onEdit task_a (state_of [task_a; task_b] ∅))).2 = None.
Proof.
  apply (proj1 (proj2 (update_rejection (db_over [task_a; task_b] task_a) "u1" buy_milk
                         (onEdit task_a (state_of [task_a; task_b] ∅)))) task_a);
    reflexivity.
Defined.

(** ** The projection as a whole *)

Section ProjectionShape.
Variable getTime : string → Z.
Variable setHours0 : Z → Z.
Variable addDays addMonths : Z → Z → Z.
Implicit Types (cache l : list Task) (f : FilterOptions) (t a b : Task).

Lemma by_category_sublist f l : by_category f l `sublist_of` l.
Proof. unfold by_category. destruct (decide _); [apply sublist_filter | done]. Qed.

Lemma by_priority_sublist f l : by_priority f l `sublist_of` l.
Proof. unfold by_priority. destruct (decide _); [apply sublist_filter | done]. Qed.

Lemma by_status_sublist f l : by_status f l `sublist_of` l.
Proof. unfold by_status. destruct (decide _); [apply sublist_filter | done]. Qed.

Lemma by_due_date_sublist now f l :
  by_due_date getTime setHours0 addDays addMonths now f l `sublist_of` l.
Proof. unfold by_due_date. destruct (decide _); [apply sublist_filter | done]. Qed.

Lemma some_filter_active_false f :
  some_filter_active f = false →
  f_category f = "all" ∧ f_priority f = "all" ∧ f_status f = "all" ∧ dueDateRange f = AllDates.
Proof.
  unfold some_filter_active. rewrite !orb_false_iff, !negb_false_iff, !bool_decide_eq_true.
  tauto.
Qed.
End ProjectionShape.

Section Precedes.
Context {A : Type}.
Implicit Types (l : list A) (a b x : A).

Lemma precedes_cons a b x l : precedes a b (x :: l) ↔ (x = a ∧ b ∈ l) ∨ precedes a b l.
Proof.
  split.
  - intros (l1 & l2 & l3 & Heq). destruct l1 as [|y l1]; simpl in Heq.
    + injection Heq as -> ->. left. split; [done|]. apply elem_of_app. right. left.
    + injection Heq as -> ->. right. by exists l1, l2, l3.
  - intros [[-> Hb]|(l1 & l2 & l3 & ->)].
    + apply list_elem_of_split in Hb as (l2 & l3 & ->). by exists [], l2, l3.
    + by exists (x :: l1), l2, l3.
Qed.

Lemma precedes_nil a b : ¬ precedes a b [].
Proof. intros (l1 & l2 & l3 & Heq). by destruct l1. Qed.

Lemma precedes_filter (P : A → Prop) `{∀ x, Decision (P x)} a b l :
  precedes a b l → P a → P b → precedes a b (filter P l).
Proof.
  intros (l1 & l2 & l3 & ->) Ha Hb.
  exists (filter P l1), (filter P l2), (filter P l3).
  rewrite filter_app, filter_cons_True by done.
  by rewrite filter_app, filter_cons_True by done.
Qed.

Lemma precedes_sort_insert (compare : A → A → Z) a b x l :
  precedes a b l → precedes a b (sort_insert compare x l).
Proof.
  induction l as [|y l IH]; simpl; intros Hp; [by apply precedes_nil in Hp|].
  destruct (0 <? compare x y); [|apply precedes_cons; by right].
  apply precedes_cons in Hp as [[-> Hb]|Hp]; apply precedes_cons.
  - left. split; [done|]. rewrite sort_insert_perm. by right.
  - right. by apply IH.
Qed.

Lemma sort_insert_precedes (compare : A → A → Z) x b l :
  b ∈ l → compare x b ≤ 0 → precedes x b (sort_insert compare x l).
Proof.
  induction l as [|y l IH]; simpl; intros Hb Hle; [by inversion Hb|].
  destruct (0 <? compare x y) eqn:E.
  - apply Z.ltb_lt in E. apply elem_of_cons in Hb as [->|Hb]; [lia|].
    apply precedes_cons. right. by apply IH.
  - apply precedes_cons. by left.
Qed.

(** The sort never moves an element behind one that the comparator
    does not put strictly before it. *)
Lemma array_sort_precedes (compare : A → A → Z) a b l :
  precedes a b l → compare a b ≤ 0 → precedes a b (array_sort compare l).
Proof.
  induction l as [|x l IH]; simpl; intros Hp Hle; [by apply precedes_nil in Hp|].
  apply precedes_cons in Hp as [[-> Hb]|Hp].
  - apply sort_insert_precedes; [|done]. by rewrite array_sort_perm.
  - apply precedes_sort_insert. by apply IH.
Qed.
End Precedes.

(** X12. The projection only rearranges and hides: whatever the filters
    and the sort key, the list shown is a rearrangement of a sublist of
    the cache, so it never shows more tasks than are cached nor a task
    twice that is cached once; two sort keys show the same tasks; and
    when no filter is active (the state the "Clear Filters" button
    restores), the list shown is a rearrangement of the whole cache. *)
Theorem projection_rearranges (getTime : string → Z) (setHours0 : Z → Z)
    (addDays addMonths : Z → Z → Z) (now : Z) (cache : list Task) (sortBy : SortOption)
    (f : FilterOptions) :
  let shown := filteredAndSortedTasks getTime setHours0 addDays addMonths now cache sortBy f in
  (∃ kept, kept `sublist_of` cache ∧ shown ≡ₚ kept) ∧
  (length shown ≤ length cache)%nat ∧
  (NoDup (ids cache) → NoDup (ids shown)) ∧
  (∀ sortBy', shown ≡ₚ
     filteredAndSortedTasks getTime setHours0 addDays addMonths now cache sortBy' f) ∧
  (some_filter_active f = false → shown ≡ₚ cache) ∧
  some_filter_active clear_filters = false.
Proof.
  cbv zeta. unfold filteredAndSortedTasks.
  set (kept := by_due_date getTime setHours0 addDays addMonths now f
                 (by_status f (by_priority f (by_category f cache)))).
  assert (kept `sublist_of` cache) as Hsub.
  { unfold kept. etrans; [apply by_due_date_sublist|]. etrans; [apply by_status_sublist|].
    etrans; [apply by_priority_sublist|]. apply by_category_sublist. }
  split; [exists kept; split; [done | apply array_sort_perm]|].
  split; [rewrite array_sort_perm; by apply sublist_length|].
  split.
  { intros Hnd. unfold ids. rewrite array_sort_perm.
    eapply sublist_NoDup; [exact Hnd|]. by apply fmap_sublist. }
  split; [intros sortBy'; by rewrite !array_sort_perm|].
  split; [|done].
  intros (Hc & Hp & Hs & Hd)%some_filter_active_false. rewrite array_sort_perm.
  unfold kept, by_due_date, by_status, by_priority, by_category.
  rewrite Hc, Hp, Hs, Hd. by rewrite !decide_False by (intros H; by apply H).
Qed.

Lemma projection_rearranges_witness :
  visible_at 0 [task_a; task_b; task_c] ByPriority clear_filters ≡ₚ [task_a; task_b; task_c].
Proof.
  apply (proj1 (proj2 (proj2 (proj2 (proj2
           (projection_rearranges utc_getTime utc_setHours0 utc_addDays utc_addMonths 0
              [task_a; task_b; task_c] ByPriority clear_filters)))))).
  reflexivity.
Defined.

(** X13. The projection keeps the order of the cache wherever the sort
    key does not decide otherwise: if a stands before b in the cache,
    both are shown, and the comparator does not put b strictly before
    a, then a stands before b in the list shown. In particular two
    tasks that tie under the sort key are shown in cache order. *)
Theorem projection_stable (getTime : string → Z) (setHours0 : Z → Z)
    (addDays addMonths : Z → Z → Z) (now : Z) (cache : list Task) (sortBy : SortOption)
    (f : FilterOptions) (a b : Task) :
  let shown := filteredAndSortedTasks getTime setHours0 addDays addMonths now cache sortBy f in
  precedes a b cache → a ∈ shown → b ∈ shown →
  compare_tasks getTime sortBy a b ≤ 0 →
  precedes a b shown.
Proof.
  cbv zeta. intros Hp Ha Hb Hle.
  apply elem_of_filteredAndSortedTasks in Ha as (_ & Ha1 & Ha2 & Ha3 & Ha4).
  apply elem_of_filteredAndSortedTasks in Hb as (_ & Hb1 & Hb2 & Hb3 & Hb4).
  unfold filteredAndSortedTasks. apply array_sort_precedes; [|done].
  assert (precedes a b (by_category f cache)) as H1.
  { unfold by_category. destruct (decide (f_category f ≠ "all")); [|done].
    apply precedes_filter; [done| |]; tauto. }
  assert (precedes a b (by_priority f (by_category f cache))) as H2.
  { unfold by_priority. destruct (decide (f_priority f ≠ "all")); [|done].
    apply precedes_filter; [done| |]; tauto. }
  assert (precedes a b (by_status f (by_priority f (by_category f cache)))) as H3.
  { unfold by_status. destruct (decide (f_status f ≠ "all")); [|done].
    apply precedes_filter; [done| |]; tauto. }
  unfold by_due_date. destruct (decide (dueDateRange f ≠ AllDates)); [|done].
  apply precedes_filter; [done| |]; apply in_due_range_bucket; tauto.
Qed.

Lemma projection_stable_witness :
  precedes (completed_set false task_c) task_d
    (visible_at 0 [completed_set false task_c; task_a; task_d] Oldest clear_filters).
Proof.
  apply (projection_stable utc_getTime utc_setHours0 utc_addDays utc_addMonths 0
           [completed_set false task_c; task_a; task_d] Oldest clear_filters
           (completed_set false task_c) task_d).
  - by exists [], [task_a], [].
  - apply (bool_decide_unpack _). by vm_compute.
  - apply (bool_decide_unpack _). by vm_compute.
  - by vm_compute.
Defined.

(** ** Categories *)

Section Categories.
Implicit Types (l : list string) (x y : string).

Lemma elem_of_set_array x l : x ∈ set_array l ↔ x ∈ l.
Proof.
  induction l as [|y l IH]; simpl; [done|].
  rewrite !elem_of_cons, list_elem_of_filter, IH.
  destruct (decide (x = y)); tauto.
Qed.

Lemma NoDup_set_array l : NoDup (set_array l).
Proof.
  induction l as [|y l IH]; simpl; [constructor|].
  apply NoDup_cons. split; [|by apply NoDup_filter].
  rewrite list_elem_of_filter. tauto.
Qed.

Lemma compare_strings_le x y : compare_strings x y ≤ 0 ↔ String.le x y.
Proof.
  unfold compare_strings, String.le, String.leb.
  destruct (String.compare x y); simpl; split; intros H;
    first [exact I | lia | by destruct H].
Qed.

Lemma compare_strings_swap x y : 0 < compare_strings x y → compare_strings y x ≤ 0.
Proof.
  unfold compare_strings. rewrite (String.compare_antisym y x).
  destruct (String.compare x y); simpl; lia.
Qed.

Lemma compare_strings_trans x y z :
  compare_strings x y ≤ 0 → compare_strings y z ≤ 0 → compare_strings x z ≤ 0.
Proof. rewrite !compare_strings_le. apply transitivity. Qed.

Lemma StronglySorted_weaken {A : Type} (R R' : A → A → Prop) (l : list A) :
  (∀ a b, R a b → R' a b) → StronglySorted R l → StronglySorted R' l.
Proof.
  intros HR. induction 1 as [|a l Hs IH Hall]; constructor; [done|].
  eapply Forall_impl; [exact Hall|]. intros b. apply HR.
Qed.
End Categories.

(** X14. The categories offered by the filter bar are exactly the three
    defaults together with the categories of the cached tasks, each
    once, in ascending order of their code units. *)
Theorem categories_spec (cache : list Task) :
  (∀ c, c ∈ categories cache ↔
        c ∈ defaultCategories ∨ ∃ t, t ∈ cache ∧ category t = c) ∧
  NoDup (categories cache) ∧
  StronglySorted String.le (categories cache).
Proof.
  unfold categories. split; [|split].
  - intros c. rewrite array_sort_perm, elem_of_set_array, elem_of_app, elem_of_set_array.
    rewrite list_elem_of_fmap. split; (intros [H|(t & H1 & H2)]; [by left | right; by exists t]).
  - rewrite array_sort_perm. apply NoDup_set_array.
  - eapply StronglySorted_weaken;
      [|apply array_sort_sorted; [apply compare_strings_swap | apply compare_strings_trans]].
    intros x y. apply compare_strings_le.
Qed.

(** ** Overdue on the card and in the filter *)

(** X15. Provided taking a date to midnight keeps dates in order, every
    task the overdue filter shows is marked overdue on its card. (The
    card compares the due date with the present moment, the filter
    compares the days, so the card also marks an open task due today.) *)
Theorem overdue_filter_implies_flag (getTime : string → Z) (setHours0 : Z → Z)
    (addDays addMonths : Z → Z → Z) (now : Z) (t : Task) :
  (∀ x y, x ≤ y → setHours0 x ≤ setHours0 y) →
  in_due_range getTime setHours0 addDays addMonths Overdue (setHours0 now) t = true →
  isOverdue getTime now t = true.
Proof.
  intros Hmono. unfold in_due_range, isOverdue.
  destruct (no_due_date t); [done|]. simpl.
  rewrite !andb_true_iff, Z.ltb_lt. intros [Hlt Hc]. split; [|done].
  apply Z.ltb_lt. destruct (Z_lt_le_dec (due_time getTime t) now) as [|Hge]; [done|].
  apply Hmono in Hge. lia.
Qed.

Lemma utc_setHours0_mono (x y : Z) : x ≤ y → utc_setHours0 x ≤ utc_setHours0 y.
Proof.
  intros Hxy. unfold utc_setHours0, day_ms.
  rewrite (Z.mod_eq x 86400000), (Z.mod_eq y 86400000) by lia.
  pose proof (Z.div_le_mono x y 86400000 ltac:(lia) Hxy). lia.
Qed.

Lemma overdue_filter_implies_flag_witness :
  isOverdue utc_getTime (20431 * day_ms + 5) task_d = true.
Proof.
  apply (overdue_filter_implies_flag utc_getTime utc_setHours0 utc_addDays utc_addMonths
           (20431 * day_ms + 5) task_d utc_setHours0_mono).
  reflexivity.
Defined.

(** The converse fails: task d is due on the 8th at midnight; in the
    afternoon of the 8th its card is marked overdue and the overdue
    filter does not show it. *)
Example overdue_flag_without_filter :
  let now := 20430 * day_ms + 54000000 in
  isOverdue utc_getTime now task_d = true ∧
  in_due_range utc_getTime utc_setHours0 utc_addDays utc_addMonths Overdue
    (utc_setHours0 now) task_d = false.
Proof. by vm_compute. Qed.

(** ** Select-all within the view *)

(** X16. When the ids of the visible list are distinct and the
    selection lies within them, select-all clears the selection if
    every visible id is selected and otherwise selects exactly the
    visible ids. When the ids are distinct and select-all has selected
    the visible ids, the size test sees them all selected, and a second
    select-all clears the selection. *)
Theorem selectAllTasks_in_view (s : gset string) (visible : list Task) :
  NoDup (ids visible) →
  (s ⊆ list_to_set (ids visible) →
     ((∀ x, x ∈ ids visible → x ∈ s) → selectAllTasks s visible = ∅) ∧
     (¬ (∀ x, x ∈ ids visible → x ∈ s) →
        selectAllTasks s visible = list_to_set (ids visible))) ∧
  (size s ≠ length visible →
     size (selectAllTasks s visible) = length visible ∧
     selectAllTasks (selectAllTasks s visible) visible = ∅).
Proof.
  intros Hnd. split; [by apply selectAllTasks_within_view|].
  intros Hne.
  assert (size (list_to_set (ids visible) : gset string) = length visible) as Hsize.
  { rewrite size_list_to_set by done. unfold ids. by rewrite length_fmap. }
  assert (selectAllTasks s visible = list_to_set (ids visible)) as ->
    by (unfold selectAllTasks; by rewrite decide_False).
  split; [done|]. unfold selectAllTasks. by rewrite decide_True.
Qed.

Lemma selectAllTasks_in_view_witness :
  selectAllTasks (selectAllTasks {["a"]} [task_a; task_b]) [task_a; task_b] = ∅.
Proof.
  apply (proj2 (selectAllTasks_in_view {["a"]} [task_a; task_b]
                  ltac:(apply (bool_decide_unpack _); vm_compute; exact I))).
  rewrite size_singleton. simpl. lia.
Defined.

(** ** Loading *)

Section Loading.
Implicit Types (user : User) (m : gmap string string).

Lemma loadUserEmails_lookup user userIds m k v :
  loadUserEmails user userIds m !! k = Some v →
  (k = u_id user ∧ v = u_email user ∧ v ≠ "") ∨ m !! k = Some v.
Proof.
  unfold loadUserEmails.
  destruct (bool_decide (u_id user ∈ userIds) && negb (bool_decide (u_email user = ""))) eqn:E.
  - apply andb_true_iff in E as [_ E]. apply negb_true_iff, bool_decide_eq_false in E.
    rewrite lookup_union_Some_raw. intros [H|[_ H]]; [|by right].
    apply lookup_singleton_Some in H as [<- <-]. by left.
  - rewrite (left_id_L ∅ (∪)). by right.
Qed.
End Loading.

(** X17. The email map only ever holds the current user: from the
    initial screen, after any sequence of load answers and change-feed
    events, every key of the map is the user's id and its value the
    user's email, which is not empty. *)
Theorem userEmails_only_current_user (user : User) (events : list ScreenEvent) :
  ∀ k v, userEmails (foldl (λ sc ev, screen_step user ev sc) initial events) !! k = Some v →
         k = u_id user ∧ v = u_email user ∧ v ≠ "".
Proof.
  assert (∀ sc, (∀ k v, userEmails sc !! k = Some v →
                        k = u_id user ∧ v = u_email user ∧ v ≠ "") →
                ∀ k v, userEmails (foldl (λ sc ev, screen_step user ev sc) sc events) !! k
                         = Some v →
                       k = u_id user ∧ v = u_email user ∧ v ≠ "") as Hgen.
  { induction events as [|ev events IH]; intros sc Hsc; simpl; [done|].
    apply IH. intros k v. destruct ev as [answer|p]; simpl.
    - unfold loadTasks. destruct (error answer), (data answer); simpl; try apply Hsc.
      intros [H|H]%loadUserEmails_lookup; [done | by apply Hsc].
    - destruct p as [n o|n o|n o]; simpl; try apply Hsc.
      destruct (for_current_user (u_id user) (INSERT n o) && negb (bool_decide (user_id n = "")));
        [|apply Hsc].
      intros [H|H]%loadUserEmails_lookup; [done | by apply Hsc]. }
  apply Hgen. intros k v H. simpl in H. by rewrite lookup_empty in H.
Qed.

Lemma userEmails_only_current_user_witness :
  userEmails (foldl (λ sc ev, screen_step user1 ev sc) initial
                [Loaded (mkResp (Some [task_a]) None); Fed (INSERT task_b None)]) !! "u1"
    = Some "me@example.org".
Proof.
  destruct (userEmails (foldl (λ sc ev, screen_step user1 ev sc) initial
                          [Loaded (mkResp (Some [task_a]) None); Fed (INSERT task_b None)])
              !! "u1") as [v|] eqn:E; [|by vm_compute in E].
  by destruct (userEmails_only_current_user user1 _ "u1" v E) as (_ & -> & _).
Defined.

(** Whatever the backend answers, [loadTasks] ends the loading
    state and leaves selection, form and filters alone. An answer with
    rows, also with none, replaces the whole cache by those rows; an
    error or an answer without data leaves the cache and the email map
    as they were. *)
Theorem loadTasks_outcome (user : User) (answer : Resp Task) (sc : Screen) :
  let sc' := loadTasks user answer sc in
  loading sc' = false ∧
  selectedTasks (core sc') = selectedTasks (core sc) ∧
  editingTask (core sc') = editingTask (core sc) ∧
  showForm (core sc') = showForm (core sc) ∧
  sortBy sc' = sortBy sc ∧ filters sc' = filters sc ∧
  (∀ rows, error answer = None → data answer = Some rows → tasks (core sc') = rows) ∧
  (error answer ≠ None ∨ data answer = None →
     tasks (core sc') = tasks (core sc) ∧ userEmails sc' = userEmails sc).
Proof.
  cbv zeta. unfold loadTasks.
  destruct (error answer) as [e|], (data answer) as [d|]; simpl;
    split_and!; try done;
    try (intros rows H1 H2; congruence); try (intros [H|H]; congruence).
Qed.

Lemma loadTasks_outcome_witness :
  tasks (core (loadTasks user1 (mkResp (Some []) None)
                 (mkScreen (state_of [task_a] ∅) true ∅ Newest clear_filters))) = [].
Proof.
  apply (proj1 (proj2 (proj2 (proj2 (proj2 (proj2 (proj2
           (loadTasks_outcome user1 (mkResp (Some []) None)
              (mkScreen (state_of [task_a] ∅) true ∅ Newest clear_filters)))))))) []);
    reflexivity.
Defined.

(** ** Patterns *)

Section Patterns.
Implicit Types (r : Regex) (l : list ascii) (a c : ascii) (p : ascii → bool).

Lemma nullable_lang r : nullable r = true ↔ lang r [].
Proof.
  split.
  - induction r; simpl; intros H; try done.
    + constructor.
    + apply andb_true_iff in H as [H1 H2]. apply (lang_seq _ _ [] []); auto.
    + apply orb_true_iff in H as [H|H]; [apply lang_alt_l | apply lang_alt_r]; auto.
    + constructor.
  - intros H. remember [] as l eqn:Hl. induction H; simpl; try done.
    + apply app_eq_nil in Hl as [-> ->]. rewrite IHlang1, IHlang2; done.
    + rewrite IHlang; done.
    + rewrite IHlang by done. apply orb_true_r.
Qed.

Lemma derive_lang a r l : lang (derive a r) l ↔ lang r (a :: l).
Proof.
  split.
  - revert l. induction r as [| |p|r1 IH1 r2 IH2|r1 IH1 r2 IH2|r IH]; simpl; intros l H.
    + inversion H.
    + inversion H.
    + destruct (p a) eqn:Hp; inversion H; subst. by constructor.
    + destruct (nullable r1) eqn:Hn.
      * inversion H as [| | | ? ? ? H1 | ? ? ? H2 | |]; subst.
        -- inversion H1; subst. apply (lang_seq _ _ (a :: _)); auto.
        -- apply nullable_lang in Hn. apply (lang_seq _ _ []); auto.
      * inversion H; subst. apply (lang_seq _ _ (a :: _)); auto.
    + inversion H; subst; [apply lang_alt_l | apply lang_alt_r]; auto.
    + inversion H; subst. apply (lang_star_cons _ (a :: _)); auto.
  - intros H. remember (a :: l) as al eqn:Hal. revert l Hal.
    induction H as [|p b Hp|r1 r2 l1 l2 H1 IH1 H2 IH2|r1 r2 l0 H1 IH1|r1 r2 l0 H2 IH2
                    |r|r l1 l2 H1 IH1 H2 IH2]; intros l Hal; simpl; try done.
    + injection Hal as -> <-. rewrite Hp. constructor.
    + destruct l1 as [|b l1]; simpl in Hal.
      * subst l2. assert (nullable r1 = true) as -> by (by apply nullable_lang).
        apply lang_alt_r. by apply IH2.
      * injection Hal as -> <-.
        destruct (nullable r1); [apply lang_alt_l|]; apply lang_seq; auto.
    + apply lang_alt_l. by apply IH1.
    + apply lang_alt_r. by apply IH2.
    + destruct l1 as [|b l1]; simpl in Hal.
      * by apply IH2.
      * injection Hal as -> <-. apply lang_seq; auto.
Qed.

(** The matcher decides the words of the pattern. *)
Lemma matches_lang r l : matches r l = true ↔ lang r l.
Proof.
  revert r. induction l as [|a l IH]; intros r; simpl.
  - apply nullable_lang.
  - rewrite IH. apply derive_lang.
Qed.

Lemma lang_seq_inv r1 r2 l :
  lang (Seq r1 r2) l ↔ ∃ l1 l2, l = (l1 ++ l2)%list ∧ lang r1 l1 ∧ lang r2 l2.
Proof.
  split.
  - intros H. inversion H; subst. eauto.
  - intros (l1 & l2 & -> & H1 & H2). by constructor.
Qed.

Lemma lang_class_inv p l : lang (Class p) l ↔ ∃ a, l = [a] ∧ p a = true.
Proof.
  split.
  - intros H. inversion H; subst. eauto.
  - intros (a & -> & H). by constructor.
Qed.

Lemma lang_star_class p l : lang (Star (Class p)) l ↔ Forall (λ a, p a = true) l.
Proof.
  split.
  - intros H. remember (Star (Class p)) as r eqn:Hr.
    induction H; try done.
    injection Hr as ->. apply Forall_app. split; [|auto].
    inversion H; subst. by repeat constructor.
  - induction 1 as [|a l Ha Hl IH]; [constructor|].
    apply (lang_star_cons _ [a]); [by constructor | done].
Qed.

Lemma lang_plus_class p l :
  lang (Plus (Class p)) l ↔ l ≠ [] ∧ Forall (λ a, p a = true) l.
Proof.
  unfold Plus. rewrite lang_seq_inv. split.
  - intros (l1 & l2 & -> & H1 & H2). apply lang_class_inv in H1 as (a & -> & Ha).
    apply lang_star_class in H2. split; [done|]. by constructor.
  - intros [Hne Hall]. destruct l as [|a l]; [done|].
    apply Forall_cons in Hall as [Ha Hl]. exists [a], l.
    split; [done|]. split; [by constructor | by apply lang_star_class].
Qed.

Lemma lang_any_star l : lang (Star Any) l.
Proof. apply lang_star_class. by apply Forall_true. Qed.

(** [test]: some part of the string is a word of the pattern. *)
Lemma test_lang r (s : string) :
  test r s = true ↔
  ∃ pre mid post, list_ascii_of_string s = (pre ++ mid ++ post)%list ∧ lang r mid.
Proof.
  unfold test. rewrite matches_lang, lang_seq_inv. split.
  - intros (pre & rest & -> & _ & H). apply lang_seq_inv in H as (mid & post & -> & H & _).
    by exists pre, mid, post.
  - intros (pre & mid & post & -> & H). exists pre, (mid ++ post)%list.
    split; [done|]. split; [apply lang_any_star|].
    apply lang_seq_inv. exists mid, post. split; [done|]. split; [done | apply lang_any_star].
Qed.

Lemma test_alnum (s : string) :
  test alnum_pattern s = true ↔ ∃ a, a ∈ list_ascii_of_string s ∧ is_alnum a = true.
Proof.
  rewrite test_lang. unfold alnum_pattern. split.
  - intros (pre & mid & post & -> & H). apply lang_class_inv in H as (a & -> & Ha).
    exists a. split; [|done]. apply elem_of_app. right. left.
  - intros (a & Hin & Ha). apply list_elem_of_split in Hin as (pre & post & ->).
    exists pre, [a], post. split; [done|]. by constructor.
Qed.

Lemma is_alnum_not_space a : is_alnum a = true → is_space a = false.
Proof. destruct a as [[] [] [] [] [] [] [] []]; by vm_compute. Qed.

Lemma trim_start_keeps a l : is_space a = false → a ∈ l → a ∈ trim_start l.
Proof.
  intros Ha. induction l as [|b l IH]; simpl; [done|].
  destruct (is_space b) eqn:Hb; [|done].
  intros [->|Hin]%elem_of_cons; [congruence | by apply IH].
Qed.

Lemma list_ascii_of_string_nil (s : string) : list_ascii_of_string s = [] → s = "".
Proof. by destruct s. Qed.

Lemma elem_of_rev a l : a ∈ rev l ↔ a ∈ l.
Proof. rewrite !list_elem_of_In. symmetry. apply in_rev. Qed.

(** A string with a character that is not white space does not trim to
    the empty string. *)
Lemma trim_not_empty (s : string) a :
  a ∈ list_ascii_of_string s → is_space a = false → trim s ≠ "".
Proof.
  intros Hin Ha. unfold trim.
  assert (a ∈ rev (trim_start (rev (trim_start (list_ascii_of_string s))))) as H.
  { apply elem_of_rev, trim_start_keeps; [done|]. by apply elem_of_rev, trim_start_keeps. }
  destruct (rev _); [by inversion H | done].
Qed.
End Patterns.

(** ** The task form *)

Section FormFacts.

Lemma size_insert_ne (m : gmap string string) (k v : string) : size (<[k:=v]> m) ≠ 0%nat.
Proof. intros H%map_size_empty_iff. by apply insert_non_empty in H. Qed.

Lemma no_errors_insert (m : gmap string string) (k v : string) :
  bool_decide (size (<[k:=v]> m) = 0%nat) = false.
Proof. apply bool_decide_eq_false, size_insert_ne. Qed.

Lemma priority_name_not_empty (p : Priority) : priority_name p ≠ "".
Proof. by destruct p. Qed.

Lemma test_alnum_trim (s : string) : test alnum_pattern s = true → trim s ≠ "".
Proof.
  intros (a & Hin & Ha)%test_alnum.
  eapply trim_not_empty; [exact Hin | by apply is_alnum_not_space].
Qed.
End FormFacts.

(** When the task form validates. *)
Lemma TaskForm_valid_iff (getTime : string → Z) (setHours0 : Z → Z) (now : Z) (f : TaskForm) :
  (TaskForm_validateForm getTime setHours0 now f).2 = true ↔
    test alnum_pattern (tf_title f) = true ∧
    length_of (tf_title f) ≤ 100 ∧
    length_of (tf_description f) ≤ 1000 ∧
    tf_dueDate f ≠ "" ∧
    setHours0 now ≤ setHours0 (getTime (tf_dueDate f)).
Proof.
  unfold TaskForm_validateForm, TaskForm_newErrors. simpl.
  rewrite (bool_decide_eq_false_2 (priority_name (tf_priority f) = ""))
    by apply priority_name_not_empty.
  destruct (bool_decide (trim (tf_title f) = "")) eqn:E1;
    [apply bool_decide_eq_true in E1 | apply bool_decide_eq_false in E1];
  destruct (test alnum_pattern (tf_title f)) eqn:E2; simpl;
  destruct (100 <? length_of (tf_title f)) eqn:E3;
    [apply Z.ltb_lt in E3 | apply Z.ltb_ge in E3 | apply Z.ltb_lt in E3 | apply Z.ltb_ge in E3
    | apply Z.ltb_lt in E3 | apply Z.ltb_ge in E3 | apply Z.ltb_lt in E3 | apply Z.ltb_ge in E3];
  destruct (1000 <? length_of (tf_description f)) eqn:E4;
  destruct (bool_decide (tf_dueDate f = "")) eqn:E5;
  destruct (setHours0 (getTime (tf_dueDate f)) <? setHours0 now) eqn:E6;
  rewrite ?no_errors_insert;
  try apply Z.ltb_lt in E4; try apply Z.ltb_ge in E4;
  try apply bool_decide_eq_true in E5; try apply bool_decide_eq_false in E5;
  try apply Z.ltb_lt in E6; try apply Z.ltb_ge in E6;
  (split; [try discriminate; intros _ | intros (H1 & H2 & H3 & H4 & H5)]);
  try (apply test_alnum_trim in E2; congruence);
  try (apply test_alnum_trim in H1; congruence);
  try congruence; try lia; try done.
  all: split_and!; try done; try lia.
Qed.

(** X18. The task form validates exactly when its title holds a letter
    or a digit and has at most 100 characters, its description has at
    most 1000, and a due date is given whose day is not before today.
    A title of white space only is reported as missing; the check of
    the priority never reports anything. *)
Theorem TaskForm_validateForm_spec (getTime : string → Z) (setHours0 : Z → Z) (now : Z)
    (f : TaskForm) :
  let newErrors := TaskForm_newErrors getTime setHours0 now f in
  ((TaskForm_validateForm getTime setHours0 now f).2 = true ↔
     test alnum_pattern (tf_title f) = true ∧
     length_of (tf_title f) ≤ 100 ∧
     length_of (tf_description f) ≤ 1000 ∧
     tf_dueDate f ≠ "" ∧
     setHours0 now ≤ setHours0 (getTime (tf_dueDate f))) ∧
  tf_errors (TaskForm_validateForm getTime setHours0 now f).1 = newErrors ∧
  newErrors !! "priority" = None ∧
  (trim (tf_title f) = "" → newErrors !! "title" = Some "Title is required").
Proof.
  cbv zeta. split; [apply TaskForm_valid_iff|split; [done|split]].
  - unfold TaskForm_newErrors.
    rewrite (bool_decide_eq_false_2 (priority_name (tf_priority f) = ""))
      by apply priority_name_not_empty.
    repeat (match goal with
            | |- context [if ?b then _ else _] => destruct b
            end; simpl; rewrite ?lookup_insert_ne by done); by rewrite ?lookup_empty.
  - intros Ht. unfold TaskForm_newErrors. rewrite (bool_decide_eq_true_2 _ Ht).
    repeat (match goal with
            | |- context [if ?b then _ else _] => destruct b
            end; simpl; rewrite ?lookup_insert_ne by done); by rewrite lookup_insert_eq.
Qed.

Lemma TaskForm_validateForm_spec_witness :
  (TaskForm_validateForm utc_getTime utc_setHours0 (20430 * day_ms + 5)
     (mkTaskForm "Buy milk" "" "Work" Low Todo "2025-12-08" ∅ "")).2 = true.
Proof.
  apply (proj1 (TaskForm_validateForm_spec utc_getTime utc_setHours0 (20430 * day_ms + 5)
                  (mkTaskForm "Buy milk" "" "Work" Low Todo "2025-12-08" ∅ ""))).
  split; [reflexivity|]. split; [by vm_compute|]. split; [by vm_compute|].
  split; [discriminate | by vm_compute].
Defined.

Section FormSubmit.
Variable getTime : string → Z.
Variable setHours0 : Z → Z.

Lemma TaskForm_validateForm_internal now m f :
  (TaskForm_validateForm getTime setHours0 now (setInternalSubmitError m f)).2
    = (TaskForm_validateForm getTime setHours0 now f).2 ∧
  TaskForm_data (TaskForm_validateForm getTime setHours0 now (setInternalSubmitError m f)).1
    = TaskForm_data f.
Proof. done. Qed.

Lemma TaskForm_handleSubmit_unfold {S : Type} now
    (submit : PartialTask → S → S * option string) f (s : S) :
  TaskForm_handleSubmit getTime setHours0 now submit f s =
    let f2 := (TaskForm_validateForm getTime setHours0 now (setInternalSubmitError "" f)).1 in
    if (TaskForm_validateForm getTime setHours0 now f).2 then
      match (submit (TaskForm_data f) s).2 with
      | Some m =>
          (setInternalSubmitError (or_else m "An error occurred while saving the task.") f2,
           (submit (TaskForm_data f) s).1)
      | None => (f2, (submit (TaskForm_data f) s).1)
      end
    else (f2, s).
Proof.
  assert (TaskForm_newErrors getTime setHours0 now (setInternalSubmitError "" f)
          = TaskForm_newErrors getTime setHours0 now f) as Hn by done.
  assert (∀ e, TaskForm_data (TaskForm_setErrors e (setInternalSubmitError "" f))
               = TaskForm_data f) as Hd by done.
  unfold TaskForm_handleSubmit, TaskForm_validateForm. rewrite Hn.
  cbv beta iota zeta. rewrite Hd. unfold snd, fst.
  destruct (bool_decide (size (TaskForm_newErrors getTime setHours0 now f) = 0%nat)); [|done].
  by destruct (submit (TaskForm_data f) s) as [s' [m|]].
Qed.
End FormSubmit.

(** X19. Submitting the task form. A form that does not validate never
    reaches the handlers: the state of the task manager is untouched.
    A valid form for a new task does what create does with the fields
    of the form, and a rejection becomes the form's own error message;
    a valid form for a task being edited does what update does. The row
    that create sends carries the owner, no id, the status chosen in
    the form (the default never applies) and, since a valid form has a
    due date, that date. *)
Theorem TaskForm_handleSubmit_spec (getTime : string → Z) (setHours0 : Z → Z) (now : Z)
    (db : Supabase) (uid : string) (f : TaskForm) (st : State) :
  let result := TaskForm_handleSubmit getTime setHours0 now (onSubmit db uid) f st in
  let valid := (TaskForm_validateForm getTime setHours0 now f).2 in
  (valid = false → result.2 = st ∧ internalSubmitError result.1 = "") ∧
  (valid = true → editingTask st = None →
     result.2 = (handleCreateTask db uid (TaskForm_data f) st).1 ∧
     internalSubmitError result.1 =
       match (handleCreateTask db uid (TaskForm_data f) st).2 with
       | Some m => or_else m "An error occurred while saving the task."
       | None => ""
       end) ∧
  (valid = true → editingTask st ≠ None →
     result.2 = (handleUpdateTask db uid (TaskForm_data f) st).1) ∧
  (valid = true →
     let row := insert_row uid (TaskForm_data f) in
     p_id row = None ∧ p_user_id row = Some uid ∧ p_status row = Some (tf_status f) ∧
     p_due_date row = Some (Some (tf_dueDate f)) ∧ p_completed row = None).
Proof.
  cbv zeta. rewrite TaskForm_handleSubmit_unfold. cbv zeta.
  split; [|split; [|split]].
  - by intros ->.
  - intros -> He. unfold onSubmit. rewrite He.
    by destruct (handleCreateTask db uid (TaskForm_data f) st) as [st' [m|]].
  - intros -> He. unfold onSubmit. destruct (editingTask st) eqn:E; [|done].
    by destruct (handleUpdateTask db uid (TaskForm_data f) st) as [st' [m|]].
  - intros Hv. apply TaskForm_valid_iff in Hv as (_ & _ & _ & Hd & _).
    simpl. by rewrite bool_decide_eq_false_2.
Qed.

Lemma TaskForm_handleSubmit_spec_witness :
  (TaskForm_handleSubmit utc_getTime utc_setHours0 (20430 * day_ms + 5) (onSubmit db_ok "u1")
     (mkTaskForm "   " "" "Work" Low Todo "2025-12-08" ∅ "") (state_of [task_a] ∅)).2
  = state_of [task_a] ∅.
Proof.
  apply (proj1 (TaskForm_handleSubmit_spec utc_getTime utc_setHours0 (20430 * day_ms + 5)
                  db_ok "u1" (mkTaskForm "   " "" "Work" Low Todo "2025-12-08" ∅ "")
                  (state_of [task_a] ∅))).
  reflexivity.
Defined.

Section FormInputs.
Lemma TaskForm_input_bounds i f :
  length_of (tf_title f) ≤ 100 ∧ length_of (tf_description f) ≤ 1000 →
  length_of (tf_title (TaskForm_input i f)) ≤ 100 ∧
  length_of (tf_description (TaskForm_input i f)) ≤ 1000.
Proof.
  intros [Ht Hd]. destruct i as [v|v|v|p|s|v]; simpl; try done.
  - unfold TaskForm_type_title. destruct (length_of v <=? 100) eqn:E; [|done].
    apply Z.leb_le in E. done.
  - unfold TaskForm_type_description. destruct (length_of v <=? 1000) eqn:E; [|done].
    apply Z.leb_le in E. done.
Qed.
End FormInputs.

(** X20. In a form opened for a new task, whatever the user types or
    picks, the title never has more than 100 characters and the
    description never more than 1000: a longer text is not taken. So
    for a new task validation never reports the description, and never
    reports the title as too long. *)
Theorem TaskForm_inputs_bounded (getTime : string → Z) (setHours0 : Z → Z) (now : Z)
    (cats : list string) (inputs : list FormInput) :
  let f := foldl (λ f i, TaskForm_input i f) (TaskForm_fill None cats) inputs in
  length_of (tf_title f) ≤ 100 ∧ length_of (tf_description f) ≤ 1000 ∧
  TaskForm_newErrors getTime setHours0 now f !! "description" = None ∧
  TaskForm_newErrors getTime setHours0 now f !! "title"
    ≠ Some "Title must be 100 characters or less".
Proof.
  cbv zeta.
  assert (∀ f0, length_of (tf_title f0) ≤ 100 ∧ length_of (tf_description f0) ≤ 1000 →
                let f := foldl (λ f i, TaskForm_input i f) f0 inputs in
                length_of (tf_title f) ≤ 100 ∧ length_of (tf_description f) ≤ 1000) as Hgen.
  { induction inputs as [|i inputs IH]; intros f0 H0; simpl; [done|].
    apply IH. by apply TaskForm_input_bounds. }
  destruct (Hgen (TaskForm_fill None cats)) as [Ht Hd]; [by vm_compute|].
  split; [done|]. split; [done|].
  unfold TaskForm_newErrors.
  apply Z.ltb_ge in Ht as ->. apply Z.ltb_ge in Hd as ->.
  rewrite (bool_decide_eq_false_2 (priority_name _ = "")) by apply priority_name_not_empty.
  split;
    repeat (match goal with
            | |- context [if ?b then _ else _] => destruct b
            end; simpl; rewrite ?lookup_insert_ne by done);
    rewrite ?lookup_insert_eq, ?lookup_empty; done.
Qed.

(** ** Sign-up and sign-in *)

Section AuthFacts.
Implicit Types (l : list ascii) (s : string).

Lemma lang_char c l : lang (Char c) l ↔ l = [c].
Proof.
  unfold Char. rewrite lang_class_inv. split.
  - intros (a & -> & Ha). apply bool_decide_eq_true in Ha. by subst.
  - intros ->. exists c. split; [done|]. by apply bool_decide_eq_true.
Qed.

Lemma lang_nonspace_plus l :
  lang (Plus NonSpace) l ↔ l ≠ [] ∧ Forall (λ a, is_space a = false) l.
Proof.
  unfold NonSpace. rewrite lang_plus_class. split; intros [Hne Hall]; (split; [done|]);
    (eapply Forall_impl; [exact Hall|]); intros a Ha; simpl in *.
  - by apply negb_true_iff.
  - by apply negb_true_iff.
Qed.

Lemma lang_email l :
  lang email_pattern l ↔
  ∃ u v w, l = (u ++ "@"%char :: v ++ "."%char :: w)%list ∧
           u ≠ [] ∧ v ≠ [] ∧ w ≠ [] ∧ Forall (λ a, is_space a = false) (u ++ v ++ w)%list.
Proof.
  unfold email_pattern. split.
  - intros (u & r1 & -> & Hu & H1)%lang_seq_inv.
    apply lang_seq_inv in H1 as (x & r2 & -> & Hx & H2).
    apply lang_seq_inv in H2 as (v & r3 & -> & Hv & H3).
    apply lang_seq_inv in H3 as (y & w & -> & Hy & Hw).
    apply lang_char in Hx as ->. apply lang_char in Hy as ->.
    apply lang_nonspace_plus in Hu as [? ?], Hv as [? ?], Hw as [? ?].
    exists u, v, w. split; [done|]. split_and!; try done. rewrite !Forall_app. done.
  - intros (u & v & w & -> & Hu & Hv & Hw & Hall).
    rewrite !Forall_app in Hall. destruct Hall as (Hau & Hav & Haw).
    apply lang_seq_inv. exists u, ("@"%char :: v ++ "."%char :: w)%list.
    split; [done|]. split; [by apply lang_nonspace_plus|].
    apply lang_seq_inv. exists ["@"%char], (v ++ "."%char :: w)%list.
    split; [done|]. split; [by apply lang_char|].
    apply lang_seq_inv. exists v, ("."%char :: w)%list.
    split; [done|]. split; [by apply lang_nonspace_plus|].
    apply lang_seq_inv. exists ["."%char], w.
    split; [done|]. split; [by apply lang_char | by apply lang_nonspace_plus].
Qed.

(** The email pattern accepts exactly the strings of the shape above. *)
Lemma test_email s : test email_pattern s = true ↔ email_shape s.
Proof.
  rewrite test_lang. unfold email_shape. split.
  - intros (pre & mid & post & Hs & (u & v & w & -> & H)%lang_email).
    exists pre, u, v, w, post. split; [|done]. rewrite Hs.
    by rewrite <- !app_assoc, <- !app_comm_cons, <- !app_assoc.
  - intros (pre & u & v & w & post & Hs & H).
    exists pre, (u ++ "@"%char :: v ++ "."%char :: w)%list, post. split.
    + rewrite Hs. by rewrite <- !app_assoc, <- !app_comm_cons, <- !app_assoc.
    + apply lang_email. by exists u, v, w.
Qed.

Lemma email_shape_not_empty s : email_shape s → s ≠ "".
Proof.
  intros (pre & u & v & w & post & Hs & _) ->. simpl in Hs.
  symmetry in Hs. apply app_eq_nil in Hs as [_ Hs]. apply app_eq_nil in Hs as [_ Hs]. done.
Qed.

Lemma length_of_empty : length_of "" = 0.
Proof. done. Qed.
End AuthFacts.

(** X21. The sign-up form validates exactly when the full name, with
    the white space around it removed, has at least two characters, the
    email has the shape the pattern asks for (an at sign between runs
    of non-space characters, then a dot and another run), the password
    has at least six characters and the confirmation equals it. *)
Theorem SignupForm_validateForm_spec (f : SignupForm) :
  SignupForm_validateForm f = true ↔
    2 ≤ length_of (trim (fullName f)) ∧
    email_shape (email f) ∧
    6 ≤ length_of (password f) ∧
    confirmPassword f = password f.
Proof.
  unfold SignupForm_validateForm, SignupForm_newErrors.
  destruct (bool_decide (trim (fullName f) = "")) eqn:E1;
    [apply bool_decide_eq_true in E1 | apply bool_decide_eq_false in E1];
  destruct (length_of (trim (fullName f)) <? 2) eqn:E2;
    [apply Z.ltb_lt in E2 | apply Z.ltb_ge in E2 | apply Z.ltb_lt in E2 | apply Z.ltb_ge in E2];
  destruct (bool_decide (email f = "")) eqn:E3;
  destruct (test email_pattern (email f)) eqn:E4; simpl;
  destruct (bool_decide (password f = "")) eqn:E5;
  destruct (length_of (password f) <? 6) eqn:E6;
  destruct (bool_decide (confirmPassword f = "")) eqn:E7;
  destruct (bool_decide (password f = confirmPassword f)) eqn:E8; simpl;
  rewrite ?no_errors_insert;
  try apply bool_decide_eq_true in E3; try apply bool_decide_eq_false in E3;
  try apply bool_decide_eq_true in E5; try apply bool_decide_eq_false in E5;
  try apply bool_decide_eq_true in E7; try apply bool_decide_eq_false in E7;
  try apply bool_decide_eq_true in E8; try apply bool_decide_eq_false in E8;
  try apply Z.ltb_lt in E6; try apply Z.ltb_ge in E6;
  (split; [try discriminate; intros _ | intros (H1 & H2 & H3 & H4)]);
  try (rewrite E1, length_of_empty in H1; lia);
  try (rewrite E1, length_of_empty in E2; lia);
  try (apply email_shape_not_empty in H2; congruence);
  try (apply test_email in H2; congruence);
  try (rewrite E5, length_of_empty in H3; lia);
  try (rewrite E5, length_of_empty in E6; lia);
  try (rewrite E7 in H4; rewrite <- H4, length_of_empty in H3; lia);
  try congruence; try lia; try done.
  all: split_and!; try done; try lia; try (by apply test_email).
Qed.

Lemma SignupForm_validateForm_spec_witness :
  SignupForm_validateForm (mkSignupForm " Al " "al@example.org" "secret" "secret") = true.
Proof.
  apply SignupForm_validateForm_spec. split; [by vm_compute|]. split; [|split; [by vm_compute|done]].
  exists [], (list_ascii_of_string "al"), (list_ascii_of_string "example"),
    (list_ascii_of_string "org"), [].
  split; [reflexivity|]. split; [done|]. split; [done|]. split; [done|].
  apply (bool_decide_unpack _). by vm_compute.
Defined.

(** X22. The sign-in form in login mode validates exactly when email
    and password are both given, with no check of their form; in
    sign-up mode it finds the same errors as the sign-up form, so it
    validates exactly the same inputs. *)
Theorem AuthForm_validateForm_spec (f : SignupForm) :
  (AuthForm_validateForm true f = true ↔ email f ≠ "" ∧ password f ≠ "") ∧
  AuthForm_errors false f = SignupForm_newErrors f ∧
  AuthForm_validateForm false f = SignupForm_validateForm f.
Proof.
  split; [|done]. unfold AuthForm_validateForm, AuthForm_errors. simpl.
  destruct (bool_decide (email f = "")) eqn:E1;
    [apply bool_decide_eq_true in E1 | apply bool_decide_eq_false in E1];
  destruct (bool_decide (password f = "")) eqn:E2;
    [apply bool_decide_eq_true in E2 | apply bool_decide_eq_false in E2
    |apply bool_decide_eq_true in E2 | apply bool_decide_eq_false in E2];
  rewrite ?no_errors_insert; split; try discriminate; try tauto; try done.
Qed.

Lemma categories_spec_witness :
  "Personal" ∈ categories [task_a] ∧ NoDup (categories [task_a; task_b]).
Proof.
  split.
  - apply (proj1 (categories_spec [task_a])). left. right. left.
  - apply (proj1 (proj2 (categories_spec [task_a; task_b]))).
Defined.

Lemma AuthForm_validateForm_spec_witness :
  AuthForm_validateForm true (mkSignupForm "" "x" "y" "") = true.
Proof.
  by apply (proj1 (AuthForm_validateForm_spec (mkSignupForm "" "x" "y" ""))).
Defined.

(** ** The submit error and the dialog *)

Lemma handleCreateTask_passed db uid d st :
  title_precheck db uid (p_title d) st = None →
  let result := handleCreateTask db uid d st in
  let inserted := insert_select db (insert_row uid d) in
  showForm result.1 = false ∧ editingTask result.1 = editingTask st ∧
  (∀ m, result.2 = Some m ↔ error inserted = Some m) ∧
  (∀ m, result.2 = Some m →
     (formSubmitError st = "" →
      formSubmitError result.1 = or_else m "Error creating task. Please try again.") ∧
     (formSubmitError st ≠ "" → formSubmitError result.1 = formSubmitError st)).
Proof.
  intros Hpre. cbv zeta. unfold handleCreateTask. rewrite Hpre. unfold create_settle.
  destruct (error (insert_select db (insert_row uid d))) as [e1|] eqn:He1; simpl.
  - destruct (report_frame st e1 "Error creating task. Please try again."
                (setShowForm false st)) as [He Hs].
    split_and!; [by rewrite Hs | by rewrite He | done |].
    intros m [= <-]. split.
    + intros Hempty. unfold report. by rewrite decide_True.
    + intros Hne. unfold report. by rewrite decide_False.
  - destruct (data (insert_select db (insert_row uid d))) as [[|n r]|]; simpl;
      split_and!; done.
Qed.

(** X23. Create closes the form as soon as the title lookup has passed,
    so also when the insert is then refused; when the lookup itself
    rejects, the form stays as it was. In both cases the handler
    rejects with the message: the lookup's error, the duplicate-title
    message when the lookup finds a row, the insert's error when the
    insert is refused; and it rejects in no other case. The message
    becomes the submit error when none was there, and the
    duplicate-title message even when one was. *)
Theorem create_dialog (db : Supabase) (uid : string) (d : PartialTask) (st : State) :
  let result := handleCreateTask db uid d st in
  let existing := select_id_by_title db uid (p_title d) in
  let inserted := insert_select db (insert_row uid d) in
  let found := ∃ x l, data existing = Some (x :: l) in
  (title_precheck db uid (p_title d) st = None → showForm result.1 = false) ∧
  (∀ st1 m, title_precheck db uid (p_title d) st = Some (st1, m) →
     showForm result.1 = showForm st ∧ result.2 = Some m) ∧
  (∀ m, result.2 = Some m → formSubmitError st = "" →
     formSubmitError result.1 = or_else m "Error creating task. Please try again.") ∧
  editingTask result.1 = editingTask st ∧
  (∀ e, error existing = Some e →
     result.2 = Some e ∧ showForm result.1 = showForm st) ∧
  (error existing = None → found →
     result.2 = Some duplicate_title ∧ showForm result.1 = showForm st ∧
     formSubmitError result.1 = duplicate_title) ∧
  (∀ e, error existing = None → ¬ found → error inserted = Some e →
     result.2 = Some e ∧ showForm result.1 = false ∧
     (formSubmitError st = "" →
      formSubmitError result.1 = or_else e "Error creating task. Please try again.") ∧
     (formSubmitError st ≠ "" → formSubmitError result.1 = formSubmitError st)) ∧
  (∀ m, result.2 = Some m ↔
     error existing = Some m ∨
     (error existing = None ∧ found ∧ m = duplicate_title) ∨
     (error existing = None ∧ ¬ found ∧ error inserted = Some m)).
Proof.
  cbv zeta.
  destruct (error (select_id_by_title db uid (p_title d))) as [e0|] eqn:He0.
  { assert (title_precheck db uid (p_title d) st = Some (st, e0)) as Hpre.
    { unfold title_precheck. by rewrite He0. }
    unfold handleCreateTask. rewrite Hpre. simpl.
    destruct (report_frame st e0 "Error creating task. Please try again." st) as [He Hs].
    split_and!.
    - done.
    - by intros st1 m [= <- <-].
    - intros m [= <-] Hempty. unfold report. by rewrite decide_True.
    - done.
    - by intros e [= <-].
    - done.
    - done.
    - intros m. split; [intros [= <-]; by left|].
      intros [[= <-]|[(? & _)|(? & _)]]; done. }
  assert ((∃ x l, data (select_id_by_title db uid (p_title d)) = Some (x :: l)) ∨
          (title_precheck db uid (p_title d) st = None ∧
           ¬ ∃ x l, data (select_id_by_title db uid (p_title d)) = Some (x :: l)))
    as [(x & l & Hd0)|[Hpre Hnf]].
  { unfold title_precheck. rewrite He0.
    destruct (data (select_id_by_title db uid (p_title d))) as [[|x l]|];
      [right | left; by exists x, l | right]; (split; [done | by intros (? & ? & ?)]). }
  - assert (title_precheck db uid (p_title d) st
            = Some (setFormSubmitError duplicate_title st, duplicate_title)) as Hpre.
    { unfold title_precheck. by rewrite He0, Hd0. }
    unfold handleCreateTask. rewrite Hpre. simpl.
    destruct (report_frame st duplicate_title "Error creating task. Please try again."
                (setFormSubmitError duplicate_title st)) as [He Hs].
    assert (formSubmitError (report st duplicate_title "Error creating task. Please try again."
                               (setFormSubmitError duplicate_title st)) = duplicate_title)
      as Hdup.
    { unfold report. by destruct (decide (formSubmitError st = "")). }
    split_and!.
    + done.
    + by intros st1 m [= <- <-].
    + intros m [= <-] _. by rewrite Hdup.
    + done.
    + done.
    + done.
    + intros e _ Hnot. destruct Hnot. by exists x, l.
    + intros m. split.
      * intros [= <-]. right. left. split_and!; [done| |done]. by exists x, l.
      * intros [?|[(_ & _ & ->)|(_ & Hnot & _)]]; [done|done|].
        destruct Hnot. by exists x, l.
  - destruct (handleCreateTask_passed db uid d st Hpre) as (Hs & He & Hrej & Hmsg).
    rewrite Hpre. split_and!.
    + done.
    + done.
    + intros m Hm Hempty. by apply (Hmsg m Hm).
    + done.
    + done.
    + done.
    + intros e _ _ Hins. apply Hrej in Hins. destruct (Hmsg e Hins). by split_and!.
    + intros m. rewrite Hrej. split.
      * intros Hins. right. right. by split_and!.
      * intros [?|[(_ & ? & _)|(_ & _ & ?)]]; done.
Qed.

Lemma create_dialog_witness :
  let result := handleCreateTask db_down "u1" buy_milk (add_new_task (state_of [] ∅)) in
  result.2 = Some "network error" ∧ showForm result.1 = false ∧
  formSubmitError result.1 = "network error".
Proof.
  cbv zeta.
  pose proof (create_dialog db_down "u1" buy_milk (add_new_task (state_of [] ∅)))
    as (_ & _ & _ & _ & _ & _ & H & _).
  destruct (H "network error") as (H1 & H2 & H3 & _);
    [reflexivity | by intros (? & ? & ?) | reflexivity |].
  split; [exact H1|]. split; [exact H2|]. by apply H3.
Defined.

(** X24. The submit error outlives the form it belongs to. After an
    update that the backend refused, opening the form again, for any
    task or for a new one, shows that error: only closing the form or
    a successful submit clears it. And while an error is there, a
    second refused update keeps the first message. *)
Theorem submit_error_is_kept (db : Supabase) (uid : string) (d : PartialTask) (st : State)
    (e : Task) (err : string) :
  editingTask st = Some e →
  (handleUpdateTask db uid d st).2 = None →
  update_eq_id db d (id e) = Some err →
  let st' := (handleUpdateTask db uid d st).1 in
  (formSubmitError st = "" →
     formSubmitError st' = or_else err "Error updating task. Please try again.") ∧
  (formSubmitError st ≠ "" → formSubmitError st' = formSubmitError st) ∧
  (∀ t, showForm (onEdit t st') = true ∧ formSubmitError (onEdit t st') = formSubmitError st') ∧
  (showForm (add_new_task st') = true ∧
   formSubmitError (add_new_task st') = formSubmitError st') ∧
  formSubmitError (onClose st') = "".
Proof.
  intros He Hpass Herr. cbv zeta.
  pose proof (handleUpdateTask_passes _ _ _ _ _ He Hpass) as Hpre.
  unfold handleUpdateTask. rewrite He, Hpre, Herr. simpl. unfold report.
  destruct (decide (formSubmitError st = "")); simpl; split_and!; done.
Qed.

Lemma submit_error_is_kept_witness :
  let st' := (handleUpdateTask db_down "u1" buy_milk
                (onEdit task_a (state_of [task_a; task_b] ∅))).1 in
  showForm st' = false ∧ formSubmitError (onEdit task_b st') = "network error".
Proof.
  cbv zeta. split; [reflexivity|].
  destruct (submit_error_is_kept db_down "u1" buy_milk
              (onEdit task_a (state_of [task_a; task_b] ∅)) task_a "network error"
              eq_refl eq_refl eq_refl) as (H1 & _ & H3 & _).
  destruct (H3 task_b) as [_ ->]. by apply H1.
Defined.

(** ** Widening a filter *)

(** X25. Switching any one filter back to "all" never hides a task that
    was shown: whatever is in the list under the filters [f] is in the
    list once the category, the priority, the status or the due-date
    filter is set to "all". *)
Theorem widening_keeps_tasks (getTime : string → Z) (setHours0 : Z → Z)
    (addDays addMonths : Z → Z → Z) (now : Z) (cache : list Task) (sortBy : SortOption)
    (f : FilterOptions) (t : Task) :
  let shown g := filteredAndSortedTasks getTime setHours0 addDays addMonths now cache sortBy g in
  t ∈ shown f →
  t ∈ shown (change_category "all" f) ∧ t ∈ shown (change_priority "all" f) ∧
  t ∈ shown (change_status "all" f) ∧ t ∈ shown (change_dueDateRange AllDates f) ∧
  t ∈ shown clear_filters.
Proof.
  cbv zeta. rewrite !elem_of_filteredAndSortedTasks. unfold passes. simpl. tauto.
Qed.

Lemma widening_keeps_tasks_witness :
  task_b ∈ visible_at 0 [task_a; task_b] Newest (mkFilters "all" "high" "all" AllDates).
Proof.
  apply (widening_keeps_tasks utc_getTime utc_setHours0 utc_addDays utc_addMonths 0
           [task_a; task_b] Newest (mkFilters "Personal" "high" "all" AllDates) task_b).
  apply (bool_decide_unpack _). by vm_compute.
Defined.
